(** * Humane Tracker TUI: the data accessor and the screen stack

    A shallow embedding of [humane-cli/humane_cli.py]: the [HumaneData]
    accessor over a loaded backup, the row lists the three table screens
    build in [on_mount], and the key-driven screen stack of [HumaneCLI].

    Conventions of the embedding.
    - A Python [str] is a [string]; comparison is lexicographic on character
      codes ([String.leb]), slicing [s[:10]] is [substring 0 10].
    - A JSON object of the backup is a record whose fields are options:
      [None] is an absent key, so [d.get(k, dflt)] is [default dflt (k d)]
      and [d[k]] raises [KeyError] on [None].  Present fields carry the
      types of the documented backup format.
    - A Python [int] is a [Z].
    - Code that can raise returns a [result]. *)

From Stdlib Require Import ZArith List String Ascii DecimalString.
From Stdlib Require Import Sorting.Sorted Sorting.Permutation.
From stdpp Require Import base option list sorting gmap strings.

Local Open Scope string_scope.
Local Open Scope list_scope.
Local Open Scope Z_scope.

(** ** Exceptions and results *)

Inductive exn : Type :=
| ValueError (msg : string)
| KeyError (k : string)
| LoadError (path : string)
| ScreenStackError
| CellDoesNotExist
| DuplicateKey (k : string).

Inductive result (A : Type) : Type :=
| Ok (a : A)
| Raise (e : exn).
Arguments Ok {A} a.
Arguments Raise {A} e.

Definition bind {A B} (r : result A) (f : A → result B) : result B :=
  match r with
  | Ok a => f a
  | Raise e => Raise e
  end.

Notation "'let!' x ':=' r 'in' k" := (bind r (λ x, k))
  (at level 10, x name, r at level 100, k at level 200).

(** ** The backup format *)

Record habit : Type := Habit {
  h_id : option string;
  h_name : option string;
  h_category : option string;
  h_targetPerWeek : option Z
}.

Record entry : Type := Entry {
  e_id : option string;
  e_habitId : option string;
  e_date : option string;
  e_value : option Z;
  e_createdAt : option string
}.

Record snapshot : Type := Snapshot {
  s_habits : option (list habit);
  s_entries : option (list entry)
}.

Global Instance habit_eq_dec : EqDecision habit.
Proof. solve_decision. Defined.
Global Instance entry_eq_dec : EqDecision entry.
Proof. solve_decision. Defined.

(** [h["id"]] *)
Definition habit_getitem_id (h : habit) : result string :=
  match h_id h with
  | Some i => Ok i
  | None => Raise (KeyError "id")
  end.

(** ** [sorted(iterable, key=..., reverse=...)]

    Python's sort is stable, and with [reverse=True] it still keeps elements
    of equal key in their original order: the list is reversed, sorted
    ascending and reversed again.  The ascending sort is a stable insertion
    sort. *)

Section PySorted.
Context {A K : Type} (key : A → K) (leb : K → K → bool).

(** [x] goes before [y] when its key is at most the key of [y]. *)
Definition key_le : relation A := λ x y, leb (key x) (key y) = true.

Fixpoint insert_by (x : A) (l : list A) : list A :=
  match l with
  | [] => [x]
  | y :: l' =>
      if leb (key x) (key y) then x :: y :: l' else y :: insert_by x l'
  end.

Fixpoint sort_by (l : list A) : list A :=
  match l with
  | [] => []
  | x :: l' => insert_by x (sort_by l')
  end.

Definition sorted (reversed : bool) (l : list A) : list A :=
  if reversed then reverse (sort_by (reverse l)) else sort_by l.
End PySorted.

(** ** [class HumaneData] *)

Record HumaneData : Type := mkHumaneData {
  data : snapshot;
  habits : gmap string habit;
  entries : list entry
}.

(** [self.data.get("habits", [])] *)
Definition data_habits (s : snapshot) : list habit := default [] (s_habits s).

(** [{h["id"]: h for h in ...}]: later habits overwrite earlier ones. *)
Fixpoint habits_by_id (m : gmap string habit) (l : list habit)
  : result (gmap string habit) :=
  match l with
  | [] => Ok m
  | h :: l' => let! i := habit_getitem_id h in habits_by_id (<[i := h]> m) l'
  end.

Section Init.
(** [open(filepath)] followed by [json.load]: [None] when the file cannot
    be read or does not parse. *)
Variable load_json : string → option snapshot.

(** The [if data is not None: ... elif filepath: ... else: raise] part of
    [__init__]; an empty path is falsy. *)
Definition init_data (filepath : option string) (dat : option snapshot)
  : result snapshot :=
  match dat with
  | Some d => Ok d
  | None =>
      match filepath with
      | Some p =>
          if bool_decide (p = "") then
            Raise (ValueError "Must provide either filepath or data")
          else match load_json p with
               | Some d => Ok d
               | None => Raise (LoadError p)
               end
      | None => Raise (ValueError "Must provide either filepath or data")
      end
  end.

Definition HumaneData_init (filepath : option string) (dat : option snapshot)
  : result HumaneData :=
  let! d := init_data filepath dat in
  let! hs := habits_by_id ∅ (data_habits d) in
  Ok (mkHumaneData d hs (default [] (s_entries d))).
End Init.

(** [habit.get("category", "uncategorized")] *)
Definition category_or_default (h : habit) : string :=
  default "uncategorized" (h_category h).

(** [categories[k].append(h)] on a [defaultdict(list)]: a dict keeps its keys
    in the order of first insertion. *)
Fixpoint dict_append (k : string) (h : habit) (d : list (string * list habit))
  : list (string * list habit) :=
  match d with
  | [] => [(k, [h])]
  | (k', hs) :: d' =>
      if bool_decide (k = k') then (k', hs ++ [h]) :: d'
      else (k', hs) :: dict_append k h d'
  end.

Definition get_categories (self : HumaneData) : list (string * list habit) :=
  foldl (λ cats h, dict_append (category_or_default h) h cats)
        [] (data_habits (data self)).

Definition get_habits_by_category (self : HumaneData) (category : string)
  : list habit :=
  filter (λ h, h_category h = Some category) (data_habits (data self)).

Definition get_entries_for_habit (self : HumaneData) (habit_id : string)
  : list entry :=
  filter (λ e, e_habitId e = Some habit_id) (entries self).

Definition get_habit_name (self : HumaneData) (habit_id : string) : string :=
  match habits self !! habit_id with
  | Some h => default "Unknown" (h_name h)
  | None => "Unknown"
  end.

(** [sum(h.get("targetPerWeek", 0) for h in habits)] *)
Definition sum_targets (hs : list habit) : Z :=
  foldl (λ acc h, acc + default 0 (h_targetPerWeek h)) 0 hs.

(** [sorted(categories.items())] compares (key, list) pairs; the keys of a
    dict differ, so the comparison is settled by the key. *)
Definition get_category_stats (self : HumaneData) : list (string * nat * Z) :=
  (λ '(cat, hs), (cat, length hs, sum_targets hs))
    <$> sorted fst String.leb false (get_categories self).

(** ** The table screens

    A [DataTable] is its list of rows and the cursor row.  A row is the
    [key=] given to [add_row], if any, and its cells. *)

Record row : Type := Row {
  row_key : option string;
  cells : list string
}.

(** [table.add_row(..., key=k)]: the table refuses a key it already
    has; a row without a key gets one of its own. *)
Definition add_row (r : row) (table : list row) : result (list row) :=
  match row_key r with
  | Some k =>
      if bool_decide (Some k ∈ row_key <$> table) then Raise (DuplicateKey k)
      else Ok (table ++ [r])
  | None => Ok (table ++ [r])
  end.

(** A loop that builds a row from each element and adds it to the table. *)
Fixpoint add_rows {A} (f : A → result row) (l : list A) (table : list row)
  : result (list row) :=
  match l with
  | [] => Ok table
  | x :: l' =>
      let! r := f x in
      let! table' := add_row r table in
      add_rows f l' table'
  end.

(** [str(n)] for an [int] *)
Definition str (n : Z) : string := NilZero.string_of_int (Z.to_int n).

(** [s[:10]] *)
Definition first10 (s : string) : string := substring 0 10 s.

(** [str.capitalize], on ASCII letters: the first character in upper case,
    the others in lower case. *)
Definition upper (c : ascii) : ascii :=
  let n := N_of_ascii c in
  if ((97 <=? n) && (n <=? 122))%N then ascii_of_N (n - 32) else c.

Definition lower (c : ascii) : ascii :=
  let n := N_of_ascii c in
  if ((65 <=? n) && (n <=? 90))%N then ascii_of_N (n + 32) else c.

Fixpoint lower_all (s : string) : string :=
  match s with
  | EmptyString => EmptyString
  | String c s' => String (lower c) (lower_all s')
  end.

Definition capitalize (s : string) : string :=
  match s with
  | EmptyString => EmptyString
  | String c s' => String (upper c) (lower_all s')
  end.

(** [CategoriesScreen.on_mount] *)
Definition CategoriesScreen_on_mount (humane_data : HumaneData) : list row :=
  (λ '(cat, count, target),
     Row (Some cat) [capitalize cat; str (Z.of_nat count); str target])
    <$> get_category_stats humane_data.

(** The sort key [h.get("name", "")] and the row of one habit. *)
Definition habit_sort_key (h : habit) : string := default "" (h_name h).

Definition habit_row (humane_data : HumaneData) (h : habit) : result row :=
  let! i := habit_getitem_id h in
  let entry_count := length (get_entries_for_habit humane_data i) in
  let! k := habit_getitem_id h in
  Ok (Row (Some k)
          [ default "Unknown" (h_name h);
            str (default 0 (h_targetPerWeek h));
            str (Z.of_nat entry_count) ]).

(** [HabitsScreen.on_mount], over [self.habits] set by [__init__]. *)
Definition HabitsScreen_on_mount (humane_data : HumaneData) (category : string)
  : result (list row) :=
  add_rows (habit_row humane_data)
           (sorted habit_sort_key String.leb false
                   (get_habits_by_category humane_data category))
           [].

(** The sort key [e.get("date", "")] and the row of one entry. *)
Definition entry_sort_key (e : entry) : string := default "" (e_date e).

Definition entry_row (e : entry) : row :=
  Row None [ first10 (default "" (e_date e));
             str (default 0 (e_value e));
             first10 (default "" (e_createdAt e)) ].

Definition no_entries_row : row := Row None ["No entries"; "-"; "-"].

(** [EntriesScreen.on_mount], over [self.entries] set by [__init__]. *)
Definition EntriesScreen_on_mount (humane_data : HumaneData) (habit_id : string)
  : list row :=
  let entries := get_entries_for_habit humane_data habit_id in
  ((entry_row <$> sorted entry_sort_key String.leb true entries)
   ++ if bool_decide (entries = []) then [no_entries_row] else []).

(** ** The screens and their key bindings *)

Inductive screen_class : Type :=
| CategoriesScreen
| HabitsScreen (category : string)
| EntriesScreen (habit_id : string)
| HelpScreen.

Global Instance screen_class_eq_dec : EqDecision screen_class.
Proof. solve_decision. Defined.

Inductive action : Type :=
| cursor_down | cursor_up | select | back | quit | help | go_top | go_bottom.

(** The [BINDINGS] tables: key, action. *)
Definition BINDINGS (c : screen_class) : list (string * action) :=
  match c with
  | CategoriesScreen =>
      [ ("j", cursor_down); ("k", cursor_up); ("enter", select); ("l", select);
        ("q", quit); ("?", help) ]
  | HabitsScreen _ =>
      [ ("j", cursor_down); ("k", cursor_up); ("enter", select); ("l", select);
        ("h", back); ("escape", back); ("q", quit); ("?", help) ]
  | EntriesScreen _ =>
      [ ("j", cursor_down); ("k", cursor_up); ("h", back); ("escape", back);
        ("q", quit); ("?", help); ("g", go_top); ("G", go_bottom) ]
  | HelpScreen =>
      [ ("escape", back); ("q", back); ("?", back) ]
  end.

Definition HumaneCLI_BINDINGS : list (string * action) := [ ("q", quit) ].

(** The first binding of a key, the screen's before the application's. *)
Fixpoint binding_of (k : string) (bs : list (string * action)) : option action :=
  match bs with
  | [] => None
  | (k', a) :: bs' => if bool_decide (k = k') then Some a else binding_of k bs'
  end.

(** A mounted screen: its class with the constructor's argument, the rows
    [on_mount] put in its table, and the table's cursor row.  The help screen
    has no table. *)
Record screen : Type := Screen {
  cls : screen_class;
  table : list row;
  cursor_row : Z
}.

Record app : Type := App {
  screen_stack : list screen;   (* the top of the stack is the head *)
  running : bool
}.

(** Constructing a screen and mounting it; the cursor starts on row 0. *)
Definition mount (humane_data : HumaneData) (c : screen_class) : result screen :=
  match c with
  | CategoriesScreen => Ok (Screen c (CategoriesScreen_on_mount humane_data) 0)
  | HabitsScreen category =>
      let! rows := HabitsScreen_on_mount humane_data category in
      Ok (Screen c rows 0)
  | EntriesScreen habit_id =>
      Ok (Screen c (EntriesScreen_on_mount humane_data habit_id) 0)
  | HelpScreen => Ok (Screen c [] 0)
  end.

Definition push_screen (s : screen) (a : app) : app :=
  App (s :: screen_stack a) (running a).

(** Popping leaves at least the framework's blank base screen, which lies
    under the screens of this stack. *)
Definition pop_screen (a : app) : result app :=
  match screen_stack a with
  | [] => Raise ScreenStackError
  | _ :: below => Ok (App below (running a))
  end.

(** The cursor row of a [DataTable] is kept between 0 and [row_count - 1],
    the two bounds taken in either order: on an empty table it stays between
    -1 and 0. *)
Definition clamp (value minimum maximum : Z) : Z :=
  let lo := if maximum <? minimum then maximum else minimum in
  let hi := if maximum <? minimum then minimum else maximum in
  if value <? lo then lo else if hi <? value then hi else value.

Definition clamp_row (n : nat) (r : Z) : Z := clamp r 0 (Z.of_nat n - 1).

Definition move_cursor (r : Z) (s : screen) : screen :=
  Screen (cls s) (table s) (clamp_row (length (table s)) r).

Definition with_top (f : screen → screen) (a : app) : app :=
  match screen_stack a with
  | [] => a
  | s :: below => App (f s :: below) (running a)
  end.

(** [str(row_key.value)] *)
Definition str_key (k : option string) : string := default "None" k.

(** The row under the cursor, [coordinate_to_cell_key((cursor_row, 0))]. *)
Definition row_at (s : screen) : option row :=
  if bool_decide (0 ≤ cursor_row s) then table s !! Z.to_nat (cursor_row s)
  else None.

(** [action_select] of the categories and habits screens: the screen to push
    is named by the key of the row under the cursor.  [on_row_selected]
    pushes the same screen from the key of the selected row. *)
Definition action_select (humane_data : HumaneData)
    (target : string → screen_class) (s : screen) (a : app) : result app :=
  if bool_decide (0 < length (table s))%nat then
    match row_at s with
    | Some r =>
        let! s' := mount humane_data (target (str_key (row_key r))) in
        Ok (push_screen s' a)
    | None => Raise CellDoesNotExist
    end
  else Ok a.

(** The [action_*] methods, by the class of the visible screen.  An action
    without a method on that class does nothing. *)
Definition run_action (humane_data : HumaneData) (act : action) (a : app)
  : result app :=
  match screen_stack a with
  | [] => Ok a
  | s :: _ =>
      let row := cursor_row s in
      let row_count := Z.of_nat (length (table s)) in
      match cls s, act with
      | _, quit => Ok (App (screen_stack a) false)
      | HelpScreen, back => pop_screen a
      | HelpScreen, _ => Ok a
      | _, cursor_down => Ok (with_top (move_cursor (row + 1)) a)
      | _, cursor_up => Ok (with_top (move_cursor (row - 1)) a)
      | _, help =>
          let! h := mount humane_data HelpScreen in Ok (push_screen h a)
      | CategoriesScreen, select => action_select humane_data HabitsScreen s a
      | HabitsScreen _, select => action_select humane_data EntriesScreen s a
      | HabitsScreen _, back => pop_screen a
      | EntriesScreen _, back => pop_screen a
      | EntriesScreen _, go_top => Ok (with_top (move_cursor 0) a)
      | EntriesScreen _, go_bottom =>
          Ok (with_top (move_cursor (row_count - 1)) a)
      | _, _ => Ok a
      end
  end.

(** One press of a key, by the [BINDINGS] tables of the visible screen and of
    the application; nothing happens once the application has quit.  Keys
    that only the framework binds are not keys of these tables. *)
Definition press (humane_data : HumaneData) (k : string) (a : app) : result app :=
  if running a then
    match screen_stack a with
    | [] => Ok a
    | s :: _ =>
        match binding_of k (BINDINGS (cls s) ++ HumaneCLI_BINDINGS) with
        | Some act => run_action humane_data act a
        | None => Ok a
        end
    end
  else Ok a.

(** [HumaneCLI.on_mount] *)
Definition HumaneCLI_on_mount (humane_data : HumaneData) : result app :=
  let! s := mount humane_data CategoriesScreen in
  Ok (push_screen s (App [] true)).

(** The states the application can be in. *)
Inductive reachable (humane_data : HumaneData) : app → Prop :=
| reachable_mount a :
    HumaneCLI_on_mount humane_data = Ok a → reachable humane_data a
| reachable_press a k a' :
    reachable humane_data a → press humane_data k a = Ok a' →
    reachable humane_data a'.

(** Running a list of key presses. *)
Fixpoint presses (humane_data : HumaneData) (ks : list string) (a : app)
  : result app :=
  match ks with
  | [] => Ok a
  | k :: ks' => let! a' := press humane_data k a in presses humane_data ks' a'
  end.

Definition visible (a : app) : option screen_class :=
  cls <$> head (screen_stack a).

(** ** Vocabulary of the properties *)

Definition is_ok {A} (r : result A) : bool :=
  match r with Ok _ => true | Raise _ => false end.

Definition str_le (a b : string) : Prop := String.leb a b = true.

Definition Zsum (l : list Z) : Z := foldr Z.add 0 l.

Definition weekly_target (h : habit) : Z := default 0 (h_targetPerWeek h).

(** The habits of category [c], the category of a habit without one being
    "uncategorized". *)
Definition habits_of_category (c : string) (l : list habit) : list habit :=
  filter (λ h, category_or_default h = c) l.

(** What the dict built by [get_categories] holds after the habits [l]. *)
Definition groups (l : list habit) (d : list (string * list habit)) : Prop :=
  NoDup d.*1
  ∧ (∀ k hs, (k, hs) ∈ d → hs = habits_of_category k l ∧ hs ≠ [])
  ∧ (∀ h, h ∈ l → category_or_default h ∈ d.*1).

(** The row built for a habit with an id. *)
Definition row_of_habit (self : HumaneData) (h : habit) (r : row) : Prop :=
  ∃ i, h_id h = Some i
       ∧ r = Row (Some i)
               [ default "Unknown" (h_name h);
                 str (weekly_target h);
                 str (Z.of_nat (length (get_entries_for_habit self i))) ].

Definition name_asc (h1 h2 : habit) : Prop :=
  str_le (habit_sort_key h1) (habit_sort_key h2).

Definition date_desc (e1 e2 : entry) : Prop :=
  str_le (entry_sort_key e2) (entry_sort_key e1).

(** The categories screen lies at the bottom of the stack. *)
Definition rooted (a : app) : Prop :=
  ∃ above s, screen_stack a = above ++ [s] ∧ cls s = CategoriesScreen.

(** ** Backups used as examples *)

(** No file can be read. *)
Definition no_files : string → option snapshot := λ _, None.

(** The backup of the test suite. *)
Definition TEST_DATA : snapshot :=
  Snapshot
    (Some [ Habit (Some "habit1") (Some "Morning Run") (Some "fitness") (Some 3);
            Habit (Some "habit2") (Some "Meditation") (Some "wellness") (Some 7);
            Habit (Some "habit3") (Some "Evening Walk") (Some "fitness") (Some 5) ])
    (Some [ Entry (Some "e1") (Some "habit1") (Some "2025-11-28") (Some 1)
                  (Some "2025-11-28T10:00:00Z");
            Entry (Some "e2") (Some "habit1") (Some "2025-11-27") (Some 1)
                  (Some "2025-11-27T10:00:00Z");
            Entry (Some "e3") (Some "habit2") (Some "2025-11-28") (Some 1)
                  (Some "2025-11-28T08:00:00Z") ]).

(** The accessor of the test suite's fixture, [HumaneData(data=TEST_DATA)]. *)
Definition test_humane_data : HumaneData :=
  mkHumaneData TEST_DATA
    (list_to_map
       ((λ h, (default "" (h_id h), h)) <$> data_habits TEST_DATA))
    (default [] (s_entries TEST_DATA)).

(** A habit without a category. *)
Definition no_category_habit : habit :=
  Habit (Some "h1") (Some "Stretch") None (Some 2).

Definition no_category_data : snapshot :=
  Snapshot (Some [no_category_habit]) (Some []).

(** An entry that names a habit id no habit has. *)
Definition orphan_entry : entry :=
  Entry (Some "e1") (Some "ghost") (Some "2025-11-28") (Some 1)
        (Some "2025-11-28T10:00:00Z").

Definition orphan_data : snapshot := Snapshot (Some []) (Some [orphan_entry]).

(** A habit without an id. *)
Definition no_id_data : snapshot :=
  Snapshot (Some [Habit None (Some "Stretch") (Some "fitness") (Some 2)])
           (Some []).

(** A habit without a name next to a named one. *)
Definition unnamed_data : snapshot :=
  Snapshot
    (Some [ Habit (Some "a") (Some "Apple") (Some "food") (Some 1);
            Habit (Some "b") None (Some "food") None ])
    (Some []).

(** Entries of one day at different times. *)
Definition same_day_data : snapshot :=
  Snapshot
    (Some [Habit (Some "habit1") (Some "Morning Run") (Some "fitness") (Some 3)])
    (Some [ Entry (Some "e1") (Some "habit1") (Some "2025-11-28T08:00:00Z")
                  (Some 1) (Some "2025-11-28T08:00:05Z");
            Entry (Some "e2") (Some "habit1") (Some "2025-11-28T10:00:00Z")
                  (Some 2) (Some "2025-11-28T10:00:05Z");
            Entry (Some "e3") (Some "habit1") (Some "2025-11-28T08:00:00Z")
                  (Some 3) (Some "2025-11-28T08:00:05Z") ]).

(** The habits screen of "fitness" over the categories screen, the cursor
    on the second habit. *)
Definition test_app : app :=
  App [ Screen (HabitsScreen "fitness")
               [ Row (Some "habit3") ["Evening Walk"; "5"; "0"];
                 Row (Some "habit1") ["Morning Run"; "3"; "2"] ] 1;
        Screen CategoriesScreen (CategoriesScreen_on_mount test_humane_data) 0 ]
      true.

(** ** [HumaneCLI.__init__] and [main] *)

(** What [main] ends in: [sys.exit(code)] after the printed lines, an
    exception nobody catches, or the application running on its first
    screen. *)
Inductive main_result : Type :=
| SystemExit (code : Z) (printed : list string)
| Uncaught (e : exn)
| Started (humane_data : HumaneData) (a : app).

Section Main.
Variable load_json : string → option snapshot.

(** [HumaneCLI.__init__]; an accessor object is truthy, an empty path is
    not. *)
Definition HumaneCLI_init (filepath : option string)
    (humane_data : option HumaneData) : result HumaneData :=
  match humane_data with
  | Some d => Ok d
  | None =>
      match filepath with
      | Some p =>
          if bool_decide (p = "") then
            Raise (ValueError "Must provide either filepath or humane_data")
          else HumaneData_init load_json (Some p) None
      | None =>
          Raise (ValueError "Must provide either filepath or humane_data")
      end
  end.

(** [Path(p).exists()] *)
Variable path_exists : string → bool.

(** [str(Path(__file__).parent.parent / "humane-tracker-backup-2025-11-29.json")] *)
Variable default_path : string.

Definition usage : list string :=
  [ "Usage: humane-cli <backup-file.json>";
    "       or place humane-tracker-backup-*.json in parent directory" ].

(** The path [main] settles on, or the exit of the usage branch. *)
Definition main_filepath (argv : list string) : main_result + string :=
  match argv with
  | _ :: arg :: _ => inr arg
  | _ => if path_exists default_path then inr default_path
         else inl (SystemExit 1 usage)
  end.

(** [main]: [HumaneCLI(filepath)] and [app.run()], up to the first screen. *)
Definition main (argv : list string) : main_result :=
  match main_filepath argv with
  | inl exit => exit
  | inr filepath =>
      if negb (path_exists filepath) then
        SystemExit 1 [("Error: File not found: " ++ filepath)%string]
      else
        match HumaneCLI_init (Some filepath) None with
        | Raise e => Uncaught e
        | Ok d =>
            match HumaneCLI_on_mount d with
            | Raise e => Uncaught e
            | Ok a => Started d a
            end
        end
  end.
End Main.

(** ** The moves of the screen stack

    What one key press can do to the application, whatever the key. *)
Inductive step (humane_data : HumaneData) : app → app → Prop :=
| step_none a : step humane_data a a
| step_quit a : step humane_data a (App (screen_stack a) false)
| step_cursor s below run r :
    cls s ≠ HelpScreen →
    step humane_data (App (s :: below) run)
         (App (move_cursor r s :: below) run)
| step_help s below run :
    cls s ≠ HelpScreen →
    step humane_data (App (s :: below) run)
         (App (Screen HelpScreen [] 0 :: s :: below) run)
| step_select_category s below run r s' :
    cls s = CategoriesScreen →
    row_at s = Some r →
    mount humane_data (HabitsScreen (str_key (row_key r))) = Ok s' →
    step humane_data (App (s :: below) run) (App (s' :: s :: below) run)
| step_select_habit s below run category r s' :
    cls s = HabitsScreen category →
    row_at s = Some r →
    mount humane_data (EntriesScreen (str_key (row_key r))) = Ok s' →
    step humane_data (App (s :: below) run) (App (s' :: s :: below) run)
| step_back s below run :
    cls s ≠ CategoriesScreen →
    step humane_data (App (s :: below) run) (App below run).

(** ** More vocabulary *)

(** The ids of the backup's habits are pairwise different. *)
Definition unique_ids (self : HumaneData) : Prop :=
  NoDup (h_id <$> data_habits (data self)).

(** The cursor is on a row of the table; on an empty table it is on row 0 or
    on row -1. *)
Definition cursor_ok (s : screen) : Prop :=
  let last := Z.of_nat (length (table s)) - 1 in
  Z.min 0 last ≤ cursor_row s ≤ Z.max 0 last.

(** The table of the screen is the one [on_mount] computes from the
    accessor. *)
Definition mounted (humane_data : HumaneData) (s : screen) : Prop :=
  ∃ s0, mount humane_data (cls s) = Ok s0 ∧ table s = table s0.

(** The stacks of the drill-down: categories, then the habits of the category
    of one of its rows, then the entries of the habit of one of its rows. *)
Inductive nav_stack : list screen → Prop :=
| nav_categories sc :
    cls sc = CategoriesScreen → nav_stack [sc]
| nav_habits sh sc r :
    cls sc = CategoriesScreen → r ∈ table sc →
    cls sh = HabitsScreen (str_key (row_key r)) →
    nav_stack [sh; sc]
| nav_entries se sh sc r category :
    nav_stack [sh; sc] → cls sh = HabitsScreen category → r ∈ table sh →
    cls se = EntriesScreen (str_key (row_key r)) →
    nav_stack [se; sh; sc].

(** A drill-down stack, possibly under the help screen. *)
Definition stack_ok (l : list screen) : Prop :=
  nav_stack l ∨ ∃ s l', l = s :: l' ∧ cls s = HelpScreen ∧ nav_stack l'.

(** The keys of the [BINDINGS] tables. *)
Definition bound_keys : list string :=
  ["j"; "k"; "enter"; "l"; "h"; "escape"; "q"; "?"; "g"; "G"].

(** The states the application gets to by presses of these keys. *)
Inductive reachable_by_keys (humane_data : HumaneData) : app → Prop :=
| reachable_by_keys_mount a :
    HumaneCLI_on_mount humane_data = Ok a → reachable_by_keys humane_data a
| reachable_by_keys_press a k a' :
    reachable_by_keys humane_data a → k ∈ bound_keys →
    press humane_data k a = Ok a' →
    reachable_by_keys humane_data a'.

(** What holds of the application as long as it runs. *)
Definition well_formed (humane_data : HumaneData) (a : app) : Prop :=
  stack_ok (screen_stack a)
  ∧ Forall (λ s, mounted humane_data s ∧ cursor_ok s) (screen_stack a).

(** The key of every row is the id of a habit of the backup. *)
Definition keyed_by_habits (self : HumaneData) (rows : list row) : Prop :=
  ∀ r, r ∈ rows →
    ∃ h i, h ∈ data_habits (data self) ∧ h_id h = Some i ∧ row_key r = Some i.

(** [s1] starts [s2]. *)
Definition starts (s1 s2 : string) : Prop := String.prefix s1 s2 = true.

(** A directory that holds the backup of the test suite in one file. *)
Definition test_files : string → option snapshot :=
  λ p, if bool_decide (p = "backup.json") then Some TEST_DATA else None.

Definition test_exists : string → bool :=
  λ p, bool_decide (p = "backup.json").

(** Two habits of one category with one id. *)
Definition duplicate_id_data : snapshot :=
  Snapshot
    (Some [ Habit (Some "x") (Some "Run") (Some "fitness") None;
            Habit (Some "x") (Some "Walk") (Some "fitness") None ])
    None.


(** * Properties *)

(** ** The sort *)

Section PySortedFacts.
Context {A K : Type} `{EqDecision K} (key : A → K) (leb : K → K → bool).
Hypothesis leb_total : ∀ a b, leb a b = true ∨ leb b a = true.

Lemma leb_refl a : leb a a = true.
Proof. by destruct (leb_total a a). Qed.

Lemma insert_by_perm x l : insert_by key leb x l ≡ₚ x :: l.
Proof.
  induction l as [|y l IH]; simpl; [done|].
  destruct (leb (key x) (key y)); [done|].
  rewrite IH. apply Permutation_swap.
Qed.

Lemma sort_by_perm l : sort_by key leb l ≡ₚ l.
Proof.
  induction l as [|x l IH]; simpl; [done|].
  by rewrite insert_by_perm, IH.
Qed.

Lemma sorted_perm r l : sorted key leb r l ≡ₚ l.
Proof.
  unfold sorted. destruct r; [|apply sort_by_perm].
  by rewrite reverse_Permutation, sort_by_perm, reverse_Permutation.
Qed.

Lemma insert_by_HdRel z x l :
  key_le key leb z x → HdRel (key_le key leb) z l →
  HdRel (key_le key leb) z (insert_by key leb x l).
Proof.
  intros Hzx Hzl. destruct l as [|y l]; simpl; [by constructor|].
  destruct (leb (key x) (key y)); constructor; [done|].
  by inversion Hzl.
Qed.

Lemma insert_by_Sorted x l :
  Sorted (key_le key leb) l → Sorted (key_le key leb) (insert_by key leb x l).
Proof.
  induction 1 as [|y l Hl IH Hy]; simpl; [by repeat constructor|].
  destruct (leb (key x) (key y)) eqn:Hxy.
  - constructor; [by constructor|]. by constructor.
  - constructor; [done|]. apply insert_by_HdRel; [|done].
    unfold key_le. destruct (leb_total (key x) (key y)); congruence.
Qed.

Lemma sort_by_Sorted l : Sorted (key_le key leb) (sort_by key leb l).
Proof.
  induction l; simpl; [constructor|]. by apply insert_by_Sorted.
Qed.

(** With [reverse=True] the result is descending. *)
Lemma sorted_reverse_Sorted l :
  Sorted (flip (key_le key leb)) (sorted key leb true l).
Proof. apply Sorted_reverse, sort_by_Sorted. Qed.

(** Stability: the elements of one key come out in the order they went in. *)
Lemma insert_by_filter k x l :
  filter (λ a, key a = k) (insert_by key leb x l)
  = filter (λ a, key a = k) (x :: l).
Proof.
  induction l as [|y l IH]; simpl; [done|].
  destruct (leb (key x) (key y)) eqn:Hxy; [done|].
  assert (key y ≠ key x) as Hne.
  { intros Heq. rewrite Heq, leb_refl in Hxy. discriminate. }
  rewrite (filter_cons _ y), IH, !filter_cons.
  repeat case_decide; congruence.
Qed.

Lemma sort_by_stable k l :
  filter (λ a, key a = k) (sort_by key leb l) = filter (λ a, key a = k) l.
Proof.
  induction l as [|x l IH]; simpl; [done|].
  by rewrite insert_by_filter, !filter_cons, IH.
Qed.

Lemma sorted_stable r k l :
  filter (λ a, key a = k) (sorted key leb r l) = filter (λ a, key a = k) l.
Proof.
  unfold sorted. destruct r; [|apply sort_by_stable].
  by rewrite filter_reverse, sort_by_stable, <-filter_reverse,
    reverse_involutive.
Qed.
End PySortedFacts.

(** ** Grouping by category *)

Lemma dict_append_keys k h d :
  (dict_append k h d).*1 = if decide (k ∈ d.*1) then d.*1 else d.*1 ++ [k].
Proof.
  induction d as [|[k' hs] d IH].
  - destruct (decide _) as [Hin|_]; [|done]. by apply elem_of_nil in Hin.
  - cbn [dict_append]. case_bool_decide as Hk; rewrite !fmap_cons; cbn [fst].
    + subst. clear IH. destruct (decide _) as [_|Hin]; [done|].
      destruct Hin. by left.
    + rewrite IH.
      destruct (decide (k ∈ d.*1)) as [Hin|Hin];
        destruct (decide (k ∈ k' :: d.*1)) as [Hin'|Hin']; try done.
      * destruct Hin'. by right.
      * by apply elem_of_cons in Hin' as [?|?].
Qed.

Lemma dict_append_elem k h d k' hs' :
  NoDup d.*1 → (k', hs') ∈ dict_append k h d →
  (k' ≠ k ∧ (k', hs') ∈ d)
  ∨ (k' = k ∧ ∃ hs, hs' = hs ++ [h] ∧ ((k, hs) ∈ d ∨ (hs = [] ∧ k ∉ d.*1))).
Proof.
  induction d as [|[k0 hs0] d IH]; simpl; intros Hnd Hin.
  - apply list_elem_of_singleton in Hin. simplify_eq. right. split; [done|].
    exists []. split; [done|]. right. split; [done|]. apply not_elem_of_nil.
  - apply NoDup_cons in Hnd as [Hk0 Hnd].
    case_bool_decide as Hk; simplify_eq.
    + apply elem_of_cons in Hin as [Heq|Hin]; simplify_eq.
      * right. split; [done|]. exists hs0. split; [done|]. left. by left.
      * left. split; [|by right]. intros ->. apply Hk0.
        by apply (list_elem_of_fmap_2 fst) in Hin.
    + apply elem_of_cons in Hin as [Heq|Hin]; simplify_eq.
      * left. split; [done|]. by left.
      * destruct (IH Hnd Hin) as [[? ?]|[-> (hs & -> & Hhs)]].
        -- left. split; [done|]. by right.
        -- right. split; [done|]. exists hs. split; [done|].
           destruct Hhs as [?|[-> ?]]; [left; by right|right].
           split; [done|]. by intros [?|?]%elem_of_cons.
Qed.

Lemma groups_nil : groups [] [].
Proof.
  split; [constructor|]. split; [|by intros ? ?%elem_of_nil].
  by intros ?? ?%elem_of_nil.
Qed.

Lemma groups_snoc l d h :
  groups l d → groups (l ++ [h]) (dict_append (category_or_default h) h d).
Proof.
  intros (Hnd & Hel & Hcov). split; [|split].
  - rewrite dict_append_keys. case_decide; [done|].
    apply NoDup_app. split; [done|]. split; [|apply NoDup_singleton].
    by intros ? ? ->%list_elem_of_singleton.
  - intros k hs Hin. unfold habits_of_category. rewrite filter_app.
    apply dict_append_elem in Hin as [[Hk Hin]|[-> (hs0 & -> & Hhs)]]; [|..|done].
    + destruct (Hel _ _ Hin) as [-> ?]. split; [|done].
      rewrite (filter_cons_False _ h) by done. by rewrite app_nil_r.
    + rewrite (filter_cons_True _ h) by done. split; [|by destruct hs0].
      f_equal. destruct Hhs as [Hin|[-> Hk]].
      { by destruct (Hel _ _ Hin). }
      symmetry. destruct (filter _ l) as [|h' ?] eqn:Hf; [done|].
      assert (h' ∈ filter (λ h0, category_or_default h0 = category_or_default h) l)
        as [Hc ?]%list_elem_of_filter by (rewrite Hf; left).
      destruct Hk. rewrite <-Hc. by apply Hcov.
  - intros h' Hin. rewrite dict_append_keys.
    apply elem_of_app in Hin as [Hin| ->%list_elem_of_singleton].
    + apply Hcov in Hin. case_decide; [done|]. apply elem_of_app. by left.
    + case_decide; [done|]. apply elem_of_app. right. by left.
Qed.

Lemma groups_foldl l0 d0 l :
  groups l0 d0 →
  groups (l0 ++ l)
    (foldl (λ cats h, dict_append (category_or_default h) h cats) d0 l).
Proof.
  revert l0 d0. induction l as [|h l IH]; intros l0 d0 H0; simpl.
  - by rewrite app_nil_r.
  - rewrite (cons_middle h l0 l), app_assoc. by apply IH, groups_snoc.
Qed.

Lemma get_categories_groups self :
  groups (data_habits (data self)) (get_categories self).
Proof. apply (groups_foldl [] []), groups_nil. Qed.

Lemma foldl_targets a hs :
  foldl (λ acc h, acc + default 0 (h_targetPerWeek h)) a hs
  = a + Zsum (weekly_target <$> hs).
Proof.
  revert a. induction hs as [|h hs IH]; intros a; cbn; [lia|].
  rewrite IH. unfold Zsum, weekly_target. lia.
Qed.

Lemma sum_targets_Zsum hs : sum_targets hs = Zsum (weekly_target <$> hs).
Proof. unfold sum_targets. by rewrite foldl_targets. Qed.

Lemma stats_categories self :
  (λ r : string * nat * Z, r.1.1) <$> get_category_stats self
  = (sorted fst String.leb false (get_categories self)).*1.
Proof.
  unfold get_category_stats. rewrite <-list_fmap_compose.
  apply list_fmap_ext. by intros _ [c hs] _.
Qed.

(** C1: [get_category_stats] has one row per distinct category, in ascending
    order of the category name; the row of category [c] holds the number of
    habits of category [c] and the sum of their weekly targets (0 for a habit
    without one). *)
Theorem get_category_stats_correct (self : HumaneData) :
  let hs := data_habits (data self) in
  let stats := get_category_stats self in
  let cats := (λ r : string * nat * Z, r.1.1) <$> stats in
  Sorted str_le cats
  ∧ NoDup cats
  ∧ (∀ c, c ∈ cats ↔ ∃ h, h ∈ hs ∧ category_or_default h = c)
  ∧ (∀ c n t, (c, n, t) ∈ stats →
       n = length (habits_of_category c hs)
       ∧ t = Zsum (weekly_target <$> habits_of_category c hs)).
Proof.
  intros hs stats cats.
  destruct (get_categories_groups self) as (Hnd & Hel & Hcov).
  fold hs in Hel, Hcov.
  assert (cats ≡ₚ (get_categories self).*1) as Hperm.
  { unfold cats, stats. rewrite stats_categories.
    by rewrite (sorted_perm fst String.leb). }
  split; [|split; [|split]].
  - unfold cats, stats. rewrite stats_categories.
    apply (Sorted_fmap _ (key_le fst String.leb)); [done|].
    apply (sort_by_Sorted fst String.leb String.leb_total).
  - by rewrite Hperm.
  - intros c. rewrite Hperm. split.
    + intros [[c' l] [-> Hin]]%list_elem_of_fmap.
      destruct (Hel _ _ Hin) as [-> Hne]. simpl.
      destruct (habits_of_category c' hs) as [|h ?] eqn:Hf; [done|].
      assert (h ∈ habits_of_category c' hs) as [? ?]%list_elem_of_filter
        by (rewrite Hf; left).
      by exists h.
    + intros (h & Hin & <-). by apply Hcov.
  - intros c n t Hin. unfold stats, get_category_stats in Hin.
    apply list_elem_of_fmap in Hin as [[c' l] [Heq Hin]]. simplify_eq.
    rewrite (sorted_perm fst String.leb) in Hin.
    destruct (Hel _ _ Hin) as [<- _]. by rewrite sum_targets_Zsum.
Qed.

(** On the backup of the test suite. *)
Example get_category_stats_test :
  (let! d := HumaneData_init no_files None (Some TEST_DATA) in
   Ok (get_category_stats d))
  = Ok [("fitness", 2%nat, 8); ("wellness", 1%nat, 7)].
Proof. reflexivity. Qed.

(** ** The "uncategorized" bucket *)

Lemma absent_category_grouped self h :
  h ∈ data_habits (data self) → h_category h = None →
  ∃ hs, ("uncategorized", hs) ∈ get_categories self ∧ h ∈ hs.
Proof.
  intros Hin Hc. destruct (get_categories_groups self) as (_ & Hel & Hcov).
  apply Hcov in Hin as Hk. unfold category_or_default in Hk at 1.
  rewrite Hc in Hk. apply list_elem_of_fmap in Hk as [[k hs] [Hk Hkin]].
  simpl in *. subst k. exists hs. split; [done|].
  destruct (Hel _ _ Hkin) as [-> _]. apply list_elem_of_filter.
  split; [|done]. unfold category_or_default. by rewrite Hc.
Qed.

Lemma absent_category_not_listed self h category :
  h_category h = None → h ∉ get_habits_by_category self category.
Proof. intros Hc [Hh _]%list_elem_of_filter. congruence. Qed.

(** C2, on a backup with one habit that has no category: [get_categories]
    puts the habit in the group "uncategorized" and the categories screen
    shows that group with one habit, while
    [get_habits_by_category "uncategorized"] is empty and so is the habits
    screen opened from that row. *)
Lemma uncategorized_bucket_mismatch :
  (let! d := HumaneData_init no_files None (Some no_category_data) in
   let! a := HumaneCLI_on_mount d in
   let! a' := press d "enter" a in
   Ok (get_categories d,
       get_habits_by_category d "uncategorized",
       table <$> screen_stack a,
       (λ s, (cls s, table s)) <$> head (screen_stack a')))
  = Ok ([("uncategorized", [no_category_habit])],
        [],
        [[Row (Some "uncategorized") ["Uncategorized"; "1"; "2"]]],
        Some (HabitsScreen "uncategorized", [])).
Proof. reflexivity. Qed.

(** ** Construction *)

Lemma habits_by_id_ok m l :
  Forall (λ h, is_Some (h_id h)) l → ∃ m', habits_by_id m l = Ok m'.
Proof.
  intros Hl. revert m. induction Hl as [|h l [i Hi] _ IH]; intros m; simpl.
  - by exists m.
  - unfold habit_getitem_id. rewrite Hi. simpl. apply IH.
Qed.

Lemma habits_by_id_raise m l :
  Exists (λ h, h_id h = None) l → habits_by_id m l = Raise (KeyError "id").
Proof.
  intros Hl. revert m. induction l as [|h l IH]; intros m; [by inversion Hl|].
  simpl. unfold habit_getitem_id. destruct (h_id h) as [i|] eqn:Hi; simpl.
  - apply IH. apply Exists_cons in Hl as [?|?]; [congruence|done].
  - done.
Qed.

Lemma habits_by_id_inv m l m' :
  habits_by_id m l = Ok m' → Forall (λ h, is_Some (h_id h)) l.
Proof.
  revert m. induction l as [|h l IH]; intros m; simpl; [by constructor|].
  unfold habit_getitem_id. destruct (h_id h) as [i|] eqn:Hi; simpl; [|done].
  intros Hm. constructor; [by rewrite Hi|by eapply IH].
Qed.

Lemma habits_by_id_raise_inv m l e :
  habits_by_id m l = Raise e → Exists (λ h, h_id h = None) l.
Proof.
  revert m. induction l as [|h l IH]; intros m; simpl; [done|].
  unfold habit_getitem_id. destruct (h_id h) as [i|] eqn:Hi; simpl.
  - intros Hm. right. by eapply IH.
  - intros _. by left.
Qed.

(** An id carried by no habit is not a key of the dict. *)
Lemma habits_by_id_lookup_None m l m' i :
  habits_by_id m l = Ok m' → (∀ h, h ∈ l → h_id h ≠ Some i) →
  m' !! i = m !! i.
Proof.
  revert m. induction l as [|h l IH]; intros m; simpl.
  - by intros [= ->].
  - unfold habit_getitem_id. destruct (h_id h) as [j|] eqn:Hj; simpl; [|done].
    intros Hm Hl. rewrite (IH _ Hm) by (intros; apply Hl; by right).
    apply lookup_insert_ne. intros ->. apply (Hl h); [by left|done].
Qed.

Section Loaded.
Variable load_json : string → option snapshot.
Variables (filepath : option string) (dat : option snapshot).
Variable self : HumaneData.
Hypothesis loaded : HumaneData_init load_json filepath dat = Ok self.

Lemma loaded_inv :
  init_data load_json filepath dat = Ok (data self)
  ∧ habits_by_id ∅ (data_habits (data self)) = Ok (habits self)
  ∧ entries self = default [] (s_entries (data self)).
Proof using loaded.
  unfold HumaneData_init in loaded.
  destruct (init_data _ _ _) as [d|]; simpl in *; [|done].
  destruct (habits_by_id _ _) as [hs|] eqn:Hhs; simpl in *; [|done].
  by simplify_eq.
Qed.

Lemma loaded_ids : Forall (λ h, is_Some (h_id h)) (data_habits (data self)).
Proof using loaded.
  destruct loaded_inv as (_ & Hhs & _). by eapply habits_by_id_inv.
Qed.

Lemma loaded_lookup_None i :
  (∀ h, h ∈ data_habits (data self) → h_id h ≠ Some i) →
  habits self !! i = None.
Proof using loaded.
  intros Hi. destruct loaded_inv as (_ & Hhs & _).
  by rewrite (habits_by_id_lookup_None _ _ _ _ Hhs Hi).
Qed.
End Loaded.

Lemma test_humane_data_loaded :
  HumaneData_init no_files None (Some TEST_DATA) = Ok test_humane_data.
Proof. reflexivity. Qed.

(** ** Lookups of an id that no habit has *)

(** C3 as stated fails: an entry may name a habit id that no habit has, and
    [get_entries_for_habit] returns it for that id. *)
Lemma unknown_habit_entries_counterexample :
  let d := mkHumaneData orphan_data ∅ [orphan_entry] in
  HumaneData_init no_files None (Some orphan_data) = Ok d
  ∧ (∀ h, h ∈ data_habits (data d) → h_id h ≠ Some "ghost")
  ∧ get_habit_name d "ghost" = "Unknown"
  ∧ get_entries_for_habit d "ghost" = [orphan_entry]
  ∧ get_entries_for_habit d "ghost" ≠ [].
Proof.
  repeat split; try done. by intros h ?%elem_of_nil.
Qed.

(** C3, amended: for an id that no habit of the loaded backup has,
    [get_habit_name] is "Unknown" and [get_entries_for_habit] is the list of
    the entries whose [habitId] is that id, empty exactly when no entry names
    the id.  Both are total functions: nothing is raised. *)
Theorem unknown_habit_lookups load_json filepath dat self habit_id :
  HumaneData_init load_json filepath dat = Ok self →
  (∀ h, h ∈ data_habits (data self) → h_id h ≠ Some habit_id) →
  get_habit_name self habit_id = "Unknown"
  ∧ (∀ e, e ∈ get_entries_for_habit self habit_id
          ↔ e ∈ entries self ∧ e_habitId e = Some habit_id)
  ∧ (get_entries_for_habit self habit_id = []
     ↔ ∀ e, e ∈ entries self → e_habitId e ≠ Some habit_id).
Proof.
  intros Hload Hid. split; [|split].
  - unfold get_habit_name.
    by rewrite (loaded_lookup_None _ _ _ _ Hload _ Hid).
  - intros e. unfold get_entries_for_habit. rewrite list_elem_of_filter.
    tauto.
  - unfold get_entries_for_habit. split.
    + intros Hnil e Hin He.
      by apply (filter_nil_not_elem_of _ _ e Hnil He).
    + intros Hno. destruct (filter _ _) as [|e ?] eqn:Hf; [done|].
      assert (e ∈ filter (λ e, e_habitId e = Some habit_id) (entries self))
        as [? ?]%list_elem_of_filter by (rewrite Hf; left).
      by destruct (Hno e).
Qed.

Lemma unknown_habit_lookups_witness :
  get_habit_name test_humane_data "nonexistent" = "Unknown"
  ∧ (∀ e, e ∈ get_entries_for_habit test_humane_data "nonexistent"
          ↔ e ∈ entries test_humane_data ∧ e_habitId e = Some "nonexistent")
  ∧ (get_entries_for_habit test_humane_data "nonexistent" = []
     ↔ ∀ e, e ∈ entries test_humane_data → e_habitId e ≠ Some "nonexistent").
Proof.
  apply (unknown_habit_lookups no_files None (Some TEST_DATA)).
  - reflexivity.
  - intros h Hin. simpl in Hin.
    repeat (apply elem_of_cons in Hin as [->|Hin]; [discriminate|]).
    by apply elem_of_nil in Hin.
Defined.

(** ** What [__init__] accepts *)

(** C6 as stated fails: a path given together with in-memory data is not
    rejected.  The data is taken, and the file, here one that does not exist,
    is not opened. *)
Lemma init_both_counterexample :
  HumaneData_init no_files (Some "backup.json") (Some TEST_DATA)
  = Ok test_humane_data.
Proof. reflexivity. Qed.

(** C6, amended: with neither a path nor data (an empty path counts as none)
    [__init__] raises [ValueError]; with both, the data is used and the path
    is ignored, whatever the file holds. *)
Theorem init_requires_path_or_data
    (load_json load_json' : string → option snapshot) :
  HumaneData_init load_json None None
    = Raise (ValueError "Must provide either filepath or data")
  ∧ HumaneData_init load_json (Some "") None
    = Raise (ValueError "Must provide either filepath or data")
  ∧ (∀ p d, HumaneData_init load_json (Some p) (Some d)
            = HumaneData_init load_json' None (Some d)).
Proof. by repeat split. Qed.

(** ** Mounting the habits screen *)

Lemma habit_row_Ok self h r : habit_row self h = Ok r → row_of_habit self h r.
Proof.
  unfold habit_row, habit_getitem_id, row_of_habit.
  destruct (h_id h) as [i|]; simpl; [|done]. intros [= <-]. by exists i.
Qed.

Lemma add_row_Ok_inv r table table' :
  add_row r table = Ok table' →
  table' = table ++ [r]
  ∧ ∀ k, row_key r = Some k → Some k ∉ row_key <$> table.
Proof.
  unfold add_row. destruct (row_key r) as [k|]; [|by intros [= <-]].
  case_bool_decide; [done|]. intros [= <-]. split; [done|]. by intros ? [= <-].
Qed.

(** The rows a loop adds are the rows of the elements, in their order; a key
    is never added twice. *)
Lemma add_rows_Ok_inv {A} (f : A → result row) l table rows :
  add_rows f l table = Ok rows →
  ∃ rs, rows = table ++ rs
        ∧ Forall2 (λ x r, f x = Ok r) l rs
        ∧ (NoDup (omap row_key table) → NoDup (omap row_key rows)).
Proof.
  revert table. induction l as [|x l IH]; intros table; simpl.
  - intros [= <-]. exists []. rewrite app_nil_r. split; [done|].
    split; [constructor|done].
  - destruct (f x) as [r|] eqn:Hx; simpl; [|done].
    destruct (add_row r table) as [table'|] eqn:Hr; simpl; [|done].
    apply add_row_Ok_inv in Hr as [-> Hnew].
    intros Hrec. destruct (IH _ Hrec) as (rs & Heq & Hrs & Hnd). clear IH.
    subst rows. exists (r :: rs).
    split; [by rewrite <-app_assoc|]. split; [by constructor|].
    intros Htable. apply Hnd. rewrite omap_app. simpl.
    destruct (row_key r) as [k|] eqn:Hk; simpl; [|by rewrite app_nil_r].
    apply NoDup_app. split; [done|]. split; [|apply NoDup_singleton].
    intros k' Hk' ->%list_elem_of_singleton. apply (Hnew k eq_refl).
    apply list_elem_of_omap in Hk' as (r' & Hr' & Hkr').
    apply list_elem_of_fmap. by exists r'.
Qed.

(** A loop fails where building a row fails, or on a key given twice. *)
Lemma add_rows_Raise_inv {A} (f : A → result row) l table e :
  add_rows f l table = Raise e →
  (∃ x, x ∈ l ∧ f x = Raise e) ∨ (∃ k, e = DuplicateKey k).
Proof.
  revert table. induction l as [|x l IH]; intros table; simpl; [done|].
  destruct (f x) as [r|] eqn:Hx; simpl.
  - destruct (add_row r table) as [table'|] eqn:Hr; simpl.
    + intros [(x' & ? & ?)|?]%IH; [left|by right].
      exists x'. split; [by right|done].
    + intros [= <-]. right. unfold add_row in Hr.
      destruct (row_key r) as [k|]; [|done]. case_bool_decide; [|done].
      exists k. congruence.
  - intros [= <-]. left. exists x. split; [by left|done].
Qed.

Lemma add_rows_Ok {A} (f : A → result row) l table rs :
  Forall2 (λ x r, f x = Ok r) l rs →
  NoDup (row_key <$> (table ++ rs)) →
  add_rows f l table = Ok (table ++ rs).
Proof.
  intros Hrs. revert table.
  induction Hrs as [|x r l rs Hx _ IH]; intros table Hnd; simpl.
  - by rewrite app_nil_r.
  - rewrite Hx. simpl.
    assert (add_row r table = Ok (table ++ [r])) as ->.
    { unfold add_row. destruct (row_key r) as [k|] eqn:Hk; [|done].
      rewrite bool_decide_eq_false_2; [done|]. intros Hin.
      rewrite fmap_app, fmap_cons, Hk in Hnd.
      apply NoDup_app in Hnd as (_ & Hdisj & _).
      apply (Hdisj _ Hin). by left. }
    simpl. rewrite (cons_middle r table rs), app_assoc in Hnd |- *.
    by apply IH.
Qed.

Lemma HabitsScreen_on_mount_inv self category rows :
  HabitsScreen_on_mount self category = Ok rows →
  Forall2 (row_of_habit self)
    (sorted habit_sort_key String.leb false
       (get_habits_by_category self category))
    rows
  ∧ NoDup (omap row_key rows).
Proof.
  intros (rs & -> & Hrs & Hnd)%add_rows_Ok_inv. simpl. split.
  - eapply Forall2_impl; [done|]. apply habit_row_Ok.
  - apply Hnd. constructor.
Qed.

(** On an accessor that [__init__] returned, the habits screen of a category
    whose habits have different ids mounts. *)
Lemma HabitsScreen_on_mount_Ok load_json filepath dat self category :
  HumaneData_init load_json filepath dat = Ok self →
  NoDup (h_id <$> get_habits_by_category self category) →
  ∃ rows, HabitsScreen_on_mount self category = Ok rows.
Proof.
  intros Hload Hnd. unfold HabitsScreen_on_mount.
  set (hs := sorted habit_sort_key String.leb false
               (get_habits_by_category self category)).
  assert (hs ≡ₚ get_habits_by_category self category) as Hperm
    by apply sorted_perm.
  assert (∃ rs, Forall2 (λ h r, habit_row self h = Ok r ∧ row_key r = h_id h)
                        hs rs) as [rs Hrs].
  { assert (Forall (λ h, is_Some (h_id h)) hs) as Hids.
    { apply Forall_forall. intros h Hin. rewrite Hperm in Hin.
      apply list_elem_of_filter in Hin as [_ Hin].
      pose proof (loaded_ids _ _ _ _ Hload) as Hall.
      rewrite Forall_forall in Hall. by apply Hall. }
    clear Hperm. induction Hids as [|h l [i Hi] _ [rs IH]].
    - exists []. constructor.
    - eexists (_ :: rs). constructor; [|done].
      unfold habit_row, habit_getitem_id. rewrite Hi. simpl. by split. }
  exists ([] ++ rs). apply add_rows_Ok.
  - eapply Forall2_impl; [done|]. by intros ?? [? _].
  - simpl. assert (row_key <$> rs = h_id <$> hs) as ->.
    { clear Hperm. induction Hrs as [|h r l rs' [_ Hk] _ IH]; [done|].
      by rewrite !fmap_cons, IH, Hk. }
    by rewrite Hperm.
Qed.

(** On an accessor that [__init__] returned, building a row never fails. *)
Lemma HabitsScreen_on_mount_Raise load_json filepath dat self category e :
  HumaneData_init load_json filepath dat = Ok self →
  HabitsScreen_on_mount self category = Raise e →
  ∃ k, e = DuplicateKey k.
Proof.
  intros Hload [(h & Hin & Hh)|?]%add_rows_Raise_inv; [|done].
  rewrite (sorted_perm habit_sort_key String.leb) in Hin.
  apply list_elem_of_filter in Hin as [_ Hin].
  pose proof (loaded_ids _ _ _ _ Hload) as Hall.
  rewrite Forall_forall in Hall. destruct (Hall h Hin) as [i Hi].
  unfold habit_row, habit_getitem_id in Hh. by rewrite Hi in Hh.
Qed.

(** C10: once [__init__] has its backup, it raises [KeyError] exactly when
    some habit has no "id", and returns an accessor exactly when every habit
    has one; on a returned accessor the subscripts [habit["id"]] of the
    habits screen never raise [KeyError]. *)
Theorem init_KeyError_iff load_json filepath dat d :
  init_data load_json filepath dat = Ok d →
  (HumaneData_init load_json filepath dat = Raise (KeyError "id")
   ↔ Exists (λ h, h_id h = None) (data_habits d))
  ∧ (is_ok (HumaneData_init load_json filepath dat) = true
     ↔ Forall (λ h, is_Some (h_id h)) (data_habits d))
  ∧ (∀ self category k,
       HumaneData_init load_json filepath dat = Ok self →
       HabitsScreen_on_mount self category ≠ Raise (KeyError k)).
Proof.
  intros Hd. split; [|split].
  - unfold HumaneData_init. rewrite Hd. simpl. split.
    + destruct (habits_by_id ∅ (data_habits d)) as [m|e] eqn:Hm; simpl; [done|].
      intros _. by eapply habits_by_id_raise_inv.
    + intros Hex. by rewrite (habits_by_id_raise _ _ Hex).
  - unfold HumaneData_init. rewrite Hd. simpl. split.
    + destruct (habits_by_id ∅ (data_habits d)) as [m|e] eqn:Hm; simpl; [|done].
      intros _. by eapply habits_by_id_inv.
    + intros Hall. by destruct (habits_by_id_ok ∅ _ Hall) as [m' ->].
  - intros self category k Hself Hraise.
    by destruct (HabitsScreen_on_mount_Raise _ _ _ _ _ _ Hself Hraise).
Qed.

Lemma init_KeyError_iff_witness :
  (HumaneData_init no_files None (Some TEST_DATA) = Raise (KeyError "id")
   ↔ Exists (λ h, h_id h = None) (data_habits TEST_DATA))
  ∧ (is_ok (HumaneData_init no_files None (Some TEST_DATA)) = true
     ↔ Forall (λ h, is_Some (h_id h)) (data_habits TEST_DATA))
  ∧ (∀ self category k,
       HumaneData_init no_files None (Some TEST_DATA) = Ok self →
       HabitsScreen_on_mount self category ≠ Raise (KeyError k)).
Proof. apply (init_KeyError_iff no_files None (Some TEST_DATA)). reflexivity. Defined.

(** A habit without an id makes [__init__] raise. *)
Example init_no_id :
  HumaneData_init no_files None (Some no_id_data) = Raise (KeyError "id").
Proof. reflexivity. Qed.

(** ** The rows of the entries screen *)

Lemma EntriesScreen_on_mount_eq self habit_id :
  EntriesScreen_on_mount self habit_id
  = let es := sorted entry_sort_key String.leb true
                (get_entries_for_habit self habit_id) in
    if decide (es = []) then [no_entries_row] else entry_row <$> es.
Proof.
  unfold EntriesScreen_on_mount. cbv zeta.
  pose proof (sorted_perm entry_sort_key String.leb true
                (get_entries_for_habit self habit_id)) as Hperm.
  case_bool_decide as Hnil.
  - rewrite Hnil in *. by rewrite decide_True.
  - rewrite decide_False, app_nil_r; [done|].
    intros Hs. rewrite Hs in Hperm. by apply Permutation_nil_l in Hperm.
Qed.

(** C4: the rows of the entries screen are the rows of the habit's entries
    in descending order of the whole date string; entries of equal date stay
    in the order of the backup.  Only the cells are cut to 10 characters
    ([entry_row]); the order is that of the uncut [entry_sort_key]. *)
Theorem entries_screen_rows (self : HumaneData) (habit_id : string) :
  ∃ es,
    EntriesScreen_on_mount self habit_id
    = (if decide (es = []) then [no_entries_row] else entry_row <$> es)
    ∧ es ≡ₚ get_entries_for_habit self habit_id
    ∧ Sorted date_desc es
    ∧ (∀ date, filter (λ e, entry_sort_key e = date) es
               = filter (λ e, entry_sort_key e = date)
                   (get_entries_for_habit self habit_id))
    ∧ get_entries_for_habit self habit_id `sublist_of` entries self.
Proof.
  exists (sorted entry_sort_key String.leb true
            (get_entries_for_habit self habit_id)).
  split; [apply EntriesScreen_on_mount_eq|].
  split; [apply sorted_perm|].
  split; [apply (sorted_reverse_Sorted _ _ String.leb_total)|].
  split; [|apply sublist_filter].
  intros date. apply (sorted_stable _ _ String.leb_total).
Qed.

(** With two times on one day the later time comes first, though the cells
    show the same date and the backup has the earlier one first; the two
    entries of equal date keep the order of the backup. *)
Example entries_screen_same_day :
  (let! d := HumaneData_init no_files None (Some same_day_data) in
   Ok (EntriesScreen_on_mount d "habit1"))
  = Ok [ Row None ["2025-11-28"; "2"; "2025-11-28"];
         Row None ["2025-11-28"; "1"; "2025-11-28"];
         Row None ["2025-11-28"; "3"; "2025-11-28"] ].
Proof. reflexivity. Qed.

(** C9: a habit id without entries gets the single row "No entries". *)
Theorem entries_screen_placeholder (self : HumaneData) (habit_id : string) :
  get_entries_for_habit self habit_id = [] →
  EntriesScreen_on_mount self habit_id = [no_entries_row]
  ∧ length (EntriesScreen_on_mount self habit_id) = 1%nat.
Proof.
  intros Hnil. unfold EntriesScreen_on_mount. cbv zeta. rewrite Hnil.
  by split.
Qed.

Lemma entries_screen_placeholder_witness :
  get_entries_for_habit test_humane_data "habit3" = []
  ∧ EntriesScreen_on_mount test_humane_data "habit3"
    = [Row None ["No entries"; "-"; "-"]]
  ∧ length (EntriesScreen_on_mount test_humane_data "habit3") = 1%nat.
Proof.
  split; [reflexivity|].
  apply (entries_screen_placeholder test_humane_data "habit3"). reflexivity.
Defined.

(** The table of the entries screen is never empty. *)
Lemma EntriesScreen_on_mount_nonempty self habit_id :
  EntriesScreen_on_mount self habit_id ≠ [].
Proof.
  rewrite EntriesScreen_on_mount_eq. cbv zeta.
  case_decide as Hes; [done|]. intros Hnil. apply Hes.
  by apply fmap_nil_inv in Hnil.
Qed.

(** ** The rows of the habits screen *)

(** C5 as stated fails: a habit without a name is shown as "Unknown" but
    sorted as the empty string, so its row comes first and the names shown
    are not in ascending order. *)
Lemma habits_screen_unknown_counterexample :
  (let! d := HumaneData_init no_files None (Some unnamed_data) in
   HabitsScreen_on_mount d "food")
  = Ok [ Row (Some "b") ["Unknown"; "0"; "0"];
         Row (Some "a") ["Apple"; "1"; "0"] ]
  ∧ ¬ Sorted str_le ["Unknown"; "Apple"].
Proof.
  split; [reflexivity|]. intros Hs.
  apply Sorted_inv in Hs as [_ Hhd]. by apply HdRel_inv in Hhd.
Qed.

(** C5, amended: when the habits screen of a category mounts (its table
    takes each id as a key once), its rows are the rows of the habits
    returned by [get_habits_by_category], in ascending order of the name,
    where a habit without a name sorts as the empty string and shows the name
    "Unknown"; habits of equal sort key stay in the order of the backup; the
    keys of the rows differ. *)
Theorem habits_screen_rows self category rows :
  HabitsScreen_on_mount self category = Ok rows →
  ∃ hs,
    Forall2 (row_of_habit self) hs rows
    ∧ hs ≡ₚ get_habits_by_category self category
    ∧ Sorted name_asc hs
    ∧ (∀ name, filter (λ h, habit_sort_key h = name) hs
               = filter (λ h, habit_sort_key h = name)
                   (get_habits_by_category self category))
    ∧ NoDup (row_key <$> rows).
Proof.
  intros [Hall Hnd]%HabitsScreen_on_mount_inv.
  exists (sorted habit_sort_key String.leb false
            (get_habits_by_category self category)).
  split; [done|].
  split; [apply sorted_perm|].
  split; [apply (sort_by_Sorted _ _ String.leb_total)|].
  split; [intros name; apply (sorted_stable _ _ String.leb_total)|].
  assert (row_key <$> rows = Some <$> omap row_key rows) as ->.
  { clear Hnd. induction Hall as [|h r hs rs (i & _ & ->) _ IH]; [done|].
    rewrite fmap_cons, IH. by simpl. }
  by apply (NoDup_fmap_2 Some).
Qed.

Lemma habits_screen_rows_witness :
  ∃ hs,
    Forall2 (row_of_habit test_humane_data) hs
      [ Row (Some "habit3") ["Evening Walk"; "5"; "0"];
        Row (Some "habit1") ["Morning Run"; "3"; "2"] ]
    ∧ hs ≡ₚ get_habits_by_category test_humane_data "fitness"
    ∧ Sorted name_asc hs
    ∧ (∀ name, filter (λ h, habit_sort_key h = name) hs
               = filter (λ h, habit_sort_key h = name)
                   (get_habits_by_category test_humane_data "fitness"))
    ∧ NoDup (row_key <$> [ Row (Some "habit3") ["Evening Walk"; "5"; "0"];
                           Row (Some "habit1") ["Morning Run"; "3"; "2"] ]).
Proof.
  apply (habits_screen_rows test_humane_data "fitness"). reflexivity.
Defined.

(** Two habits of one category with one id: the table refuses the second
    row. *)
Example habits_screen_duplicate_id :
  (let! d := HumaneData_init no_files None (Some duplicate_id_data) in
   HabitsScreen_on_mount d "fitness")
  = Raise (DuplicateKey "x").
Proof. reflexivity. Qed.

(** On the backup of the test suite: "Evening Walk", then "Morning Run". *)
Example habits_screen_test :
  HabitsScreen_on_mount test_humane_data "fitness"
  = Ok [ Row (Some "habit3") ["Evening Walk"; "5"; "0"];
         Row (Some "habit1") ["Morning Run"; "3"; "2"] ].
Proof. reflexivity. Qed.

(** ** The screen stack *)

Lemma rooted_top a :
  rooted a → ∃ s below, screen_stack a = s :: below.
Proof.
  intros (above & s & Hst & _). rewrite Hst.
  destruct above as [|t above]; simpl; eauto.
Qed.

Lemma rooted_with_top f a :
  (∀ s, cls (f s) = cls s) → rooted a → rooted (with_top f a).
Proof.
  intros Hf (above & s & Hst & Hs). unfold with_top. rewrite Hst.
  destruct above as [|t above]; simpl.
  - exists [], (f s). by rewrite Hf.
  - by exists (f t :: above), s.
Qed.

Lemma rooted_push s a : rooted a → rooted (push_screen s a).
Proof.
  intros (above & s0 & Hst & Hs). exists (s :: above), s0.
  simpl. by rewrite Hst.
Qed.

Lemma rooted_pop a a' s below :
  rooted a → screen_stack a = s :: below → cls s ≠ CategoriesScreen →
  pop_screen a = Ok a' → rooted a'.
Proof.
  intros (above & s0 & Hst & Hs) Htop Hcls. unfold pop_screen.
  rewrite Htop. intros [= <-]. rewrite Hst in Htop.
  destruct above as [|t above]; simplify_eq/=.
  by exists above, s0.
Qed.

Lemma rooted_select humane_data target s a a' :
  rooted a → action_select humane_data target s a = Ok a' → rooted a'.
Proof.
  intros Ha. unfold action_select. case_bool_decide; [|by intros [= <-]].
  destruct (row_at s) as [r|]; [|done].
  destruct (mount _ _) as [s'|]; simpl; [|done].
  intros [= <-]. by apply rooted_push.
Qed.

Lemma rooted_run_action humane_data act a a' :
  rooted a → run_action humane_data act a = Ok a' → rooted a'.
Proof.
  intros Ha. destruct (rooted_top a Ha) as (s & below & Htop).
  assert (∀ r, rooted (with_top (move_cursor r) a)) as Hmove
    by (intros r; by apply rooted_with_top).
  assert (rooted (App (s :: below) false)) as Hquit
    by (rewrite <-Htop; exact Ha).
  unfold run_action. rewrite Htop.
  destruct (cls s) eqn:Hcls, act; simpl; intros Hres;
    first
      [ injection Hres as <-;
        first [ exact Ha | exact Hquit | apply Hmove | by apply rooted_push ]
      | exact (rooted_select _ _ _ _ _ Ha Hres)
      | by (eapply rooted_pop; [exact Ha|exact Htop|congruence|exact Hres]) ].
Qed.

Lemma rooted_press humane_data k a a' :
  rooted a → press humane_data k a = Ok a' → rooted a'.
Proof.
  intros Ha. unfold press. destruct (running a); [|by intros [= <-]].
  destruct (screen_stack a) as [|s below]; [by intros [= <-]|].
  destruct (binding_of _ _) as [act|]; [|by intros [= <-]].
  by apply rooted_run_action.
Qed.

(** C7: [HumaneCLI.on_mount] leaves the stack with the categories screen
    alone; on the categories screen no key is bound to [back] and the action
    itself does nothing; so every state the application reaches has a
    non-empty stack with the categories screen at the bottom. *)
Theorem categories_screen_is_root (humane_data : HumaneData) :
  (∃ s, HumaneCLI_on_mount humane_data = Ok (App [s] true)
        ∧ cls s = CategoriesScreen)
  ∧ (∀ a s below,
       screen_stack a = s :: below → cls s = CategoriesScreen →
       (∀ k, binding_of k (BINDINGS (cls s) ++ HumaneCLI_BINDINGS) ≠ Some back)
       ∧ run_action humane_data back a = Ok a
       ∧ press humane_data "h" a = Ok a
       ∧ press humane_data "escape" a = Ok a)
  ∧ (∀ a, reachable humane_data a →
       screen_stack a ≠ []
       ∧ ∃ above s, screen_stack a = above ++ [s] ∧ cls s = CategoriesScreen).
Proof.
  split; [|split].
  - by eexists.
  - intros a s below Htop Hcls. split; [|split; [|split]].
    + intros k. rewrite Hcls. simpl.
      repeat (case_bool_decide; [done|]). done.
    + unfold run_action. by rewrite Htop, Hcls.
    + unfold press. rewrite Htop, Hcls. by destruct (running a).
    + unfold press. rewrite Htop, Hcls. by destruct (running a).
  - assert (∀ a, reachable humane_data a → rooted a) as Hroot.
    { induction 1 as [a Hmount|a k a' _ IH Hpress].
      - unfold HumaneCLI_on_mount in Hmount. simpl in Hmount.
        injection Hmount as <-. by eexists [], _.
      - by eapply rooted_press. }
    intros a Ha. split; [|by apply Hroot].
    by destruct (rooted_top a (Hroot a Ha)) as (s & below & ->).
Qed.

(** ** The help screen *)

Lemma binding_help c :
  c ≠ HelpScreen →
  binding_of "?" (BINDINGS c ++ HumaneCLI_BINDINGS) = Some help.
Proof. by destruct c. Qed.

Lemma binding_help_back k :
  k ∈ ["escape"; "q"; "?"] →
  binding_of k (BINDINGS HelpScreen ++ HumaneCLI_BINDINGS) = Some back.
Proof.
  intros Hk. repeat (apply elem_of_cons in Hk as [->|Hk]); [done..|].
  by apply elem_of_nil in Hk.
Qed.

(** C8: on a screen other than the help screen, "?" shows the help screen,
    and each key of the help screen then gives back the state before "?":
    the same stack of screens, each with its rows and its cursor row. *)
Theorem help_round_trip humane_data a s below k :
  running a = true →
  screen_stack a = s :: below →
  cls s ≠ HelpScreen →
  k ∈ ["escape"; "q"; "?"] →
  ∃ a', press humane_data "?" a = Ok a'
        ∧ visible a' = Some HelpScreen
        ∧ press humane_data k a' = Ok a.
Proof.
  intros Hrun Htop Hcls Hk. destruct a as [st run]. simpl in *. subst.
  exists (App (Screen HelpScreen [] 0 :: s :: below) true).
  split; [|split; [done|]].
  - unfold press. cbn [running screen_stack]. rewrite binding_help by done.
    unfold run_action. cbn [screen_stack]. by destruct (cls s).
  - unfold press. cbn [running screen_stack cls].
    by rewrite binding_help_back.
Qed.

Lemma help_round_trip_witness :
  ∃ a', press test_humane_data "?" test_app = Ok a'
        ∧ visible a' = Some HelpScreen
        ∧ press test_humane_data "escape" a' = Ok test_app.
Proof.
  apply (help_round_trip test_humane_data test_app
           (Screen (HabitsScreen "fitness")
                   [ Row (Some "habit3") ["Evening Walk"; "5"; "0"];
                     Row (Some "habit1") ["Morning Run"; "3"; "2"] ] 1)
           [Screen CategoriesScreen
                   (CategoriesScreen_on_mount test_humane_data) 0]).
  - reflexivity.
  - reflexivity.
  - discriminate.
  - by left.
Defined.

(** The state [test_app] is the one reached by "enter" and "j". *)
Example test_app_reached :
  (let! a := HumaneCLI_on_mount test_humane_data in
   presses test_humane_data ["enter"; "j"] a) = Ok test_app.
Proof. reflexivity. Qed.

(** * Further properties of the accessor *)

(** ** The groups of [get_categories] *)

Lemma dict_append_join k h d :
  mjoin (dict_append k h d).*2 ≡ₚ h :: mjoin d.*2.
Proof.
  induction d as [|[k' hs] d IH]; cbn [dict_append]; [done|].
  case_bool_decide; rewrite !fmap_cons; cbn [snd mjoin list_join].
  - rewrite <-app_assoc. symmetry. apply Permutation_middle.
  - rewrite IH. symmetry. apply Permutation_middle.
Qed.

Lemma get_categories_join self :
  mjoin (get_categories self).*2 ≡ₚ data_habits (data self).
Proof.
  unfold get_categories.
  assert (∀ l d,
    mjoin (foldl (λ cats h, dict_append (category_or_default h) h cats) d l).*2
    ≡ₚ mjoin d.*2 ++ l) as Hfold.
  { induction l as [|h l IH]; intros d; simpl; [by rewrite app_nil_r|].
    rewrite IH, dict_append_join. simpl. apply Permutation_middle. }
  by rewrite Hfold.
Qed.

(** [get_categories] splits the habits into groups: the keys differ, no group
    is empty, the group of a key holds the habits of that category in the
    order of the backup, and every habit is in exactly one group. *)
Theorem get_categories_partition (self : HumaneData) :
  let hs := data_habits (data self) in
  let cats := get_categories self in
  NoDup cats.*1
  ∧ (∀ k g, (k, g) ∈ cats →
       g ≠ [] ∧ g = habits_of_category k hs ∧ g `sublist_of` hs)
  ∧ mjoin cats.*2 ≡ₚ hs.
Proof.
  intros hs cats. destruct (get_categories_groups self) as (Hnd & Hel & _).
  split; [done|]. split; [|apply get_categories_join].
  intros k g Hin. destruct (Hel _ _ Hin) as [-> Hne].
  split; [done|]. split; [done|]. apply sublist_filter.
Qed.

(** ** The totals of [get_category_stats] *)

Lemma Zsum_Permutation l1 l2 : l1 ≡ₚ l2 → Zsum l1 = Zsum l2.
Proof. unfold Zsum. induction 1; simpl; lia. Qed.

Lemma Zsum_app l1 l2 : Zsum (l1 ++ l2) = Zsum l1 + Zsum l2.
Proof. unfold Zsum. induction l1; simpl; lia. Qed.

Lemma stats_of_groups_totals (cats : list (string * list habit)) :
  let stats := (λ '(cat, hs), (cat, length hs, sum_targets hs)) <$> cats in
  sum_list ((λ r : string * nat * Z, r.1.2) <$> stats) = length (mjoin cats.*2)
  ∧ Zsum ((λ r : string * nat * Z, r.2) <$> stats)
    = Zsum (weekly_target <$> mjoin cats.*2).
Proof.
  induction cats as [|[c hs] cats [IHn IHt]]; [done|]. cbn zeta in *.
  rewrite !fmap_cons. cbn [fst snd mjoin list_join sum_list_with Zsum foldr].
  split.
  - rewrite length_app. unfold id at 1. by f_equal.
  - rewrite fmap_app, Zsum_app, sum_targets_Zsum. unfold Zsum in *. by f_equal.
Qed.

(** The habit counts of the rows add up to the number of habits, and the
    weekly targets of the rows to the sum of all weekly targets. *)
Theorem get_category_stats_totals (self : HumaneData) :
  let hs := data_habits (data self) in
  let stats := get_category_stats self in
  sum_list ((λ r : string * nat * Z, r.1.2) <$> stats) = length hs
  ∧ Zsum ((λ r : string * nat * Z, r.2) <$> stats)
    = Zsum (weekly_target <$> hs).
Proof.
  intros hs stats. unfold stats, get_category_stats.
  destruct (stats_of_groups_totals
              (sorted fst String.leb false (get_categories self))) as [Hn Ht].
  cbn zeta in *. rewrite Hn, Ht.
  assert (mjoin (sorted fst String.leb false (get_categories self)).*2 ≡ₚ hs)
    as Hperm by by rewrite (sorted_perm fst String.leb), get_categories_join.
  split; [by rewrite Hperm|]. apply Zsum_Permutation. by rewrite Hperm.
Qed.

(** ** [get_habits_by_category] against the rows of [get_category_stats] *)

Lemma stats_row_inv self c n t :
  (c, n, t) ∈ get_category_stats self →
  n = length (habits_of_category c (data_habits (data self)))
  ∧ t = sum_targets (habits_of_category c (data_habits (data self))).
Proof.
  intros Hin. unfold get_category_stats in Hin.
  apply list_elem_of_fmap in Hin as [[c' l] [Heq Hin]]. simplify_eq.
  rewrite (sorted_perm fst String.leb) in Hin.
  destruct (get_categories_groups self) as (_ & Hel & _).
  by destruct (Hel _ _ Hin) as [<- _].
Qed.

Lemma get_habits_by_category_named self c :
  c ≠ "uncategorized" →
  get_habits_by_category self c
  = habits_of_category c (data_habits (data self)).
Proof.
  intros Hc. unfold get_habits_by_category, habits_of_category.
  apply list_filter_iff. intros h. unfold category_or_default.
  destruct (h_category h); simpl; split; congruence.
Qed.

(** For a category other than "uncategorized", the list of
    [get_habits_by_category] has the length and the target sum that the row
    of the category shows. *)
Theorem get_habits_by_category_stats self c n t :
  c ≠ "uncategorized" →
  (c, n, t) ∈ get_category_stats self →
  length (get_habits_by_category self c) = n
  ∧ sum_targets (get_habits_by_category self c) = t
  ∧ get_habits_by_category self c ≠ [].
Proof.
  intros Hc Hin. rewrite get_habits_by_category_named by done.
  destruct (stats_row_inv _ _ _ _ Hin) as [-> ->]. split; [done|].
  split; [done|]. unfold get_category_stats in Hin.
  apply list_elem_of_fmap in Hin as [[c' l] [Heq Hin]]. simplify_eq.
  rewrite (sorted_perm fst String.leb) in Hin.
  destruct (get_categories_groups self) as (_ & Hel & _).
  by destruct (Hel _ _ Hin) as [<- ?].
Qed.

Lemma get_habits_by_category_stats_witness :
  length (get_habits_by_category test_humane_data "fitness") = 2%nat
  ∧ sum_targets (get_habits_by_category test_humane_data "fitness") = 8
  ∧ get_habits_by_category test_humane_data "fitness" ≠ [].
Proof.
  apply (get_habits_by_category_stats test_humane_data "fitness" 2 8).
  - discriminate.
  - vm_compute. left.
Defined.

(** A category that no habit names gives the empty list, and its habits
    screen mounts with an empty table. *)
Theorem get_habits_by_category_unknown self category :
  (∀ h, h ∈ data_habits (data self) → h_category h ≠ Some category) →
  get_habits_by_category self category = []
  ∧ HabitsScreen_on_mount self category = Ok [].
Proof.
  intros Hno.
  assert (get_habits_by_category self category = []) as Hnil.
  { unfold get_habits_by_category.
    destruct (filter _ _) as [|h ?] eqn:Hf; [done|].
    assert (h ∈ filter (λ h, h_category h = Some category)
                  (data_habits (data self)))
      as [? ?]%list_elem_of_filter by (rewrite Hf; left).
    by destruct (Hno h). }
  split; [done|]. unfold HabitsScreen_on_mount. by rewrite Hnil.
Qed.

Lemma get_habits_by_category_unknown_witness :
  get_habits_by_category test_humane_data "music" = []
  ∧ HabitsScreen_on_mount test_humane_data "music" = Ok [].
Proof.
  apply (get_habits_by_category_unknown test_humane_data "music").
  intros h Hin. simpl in Hin.
  repeat (apply elem_of_cons in Hin as [->|Hin]; [discriminate|]).
  by apply elem_of_nil in Hin.
Defined.

(** ** The dict of habits *)

Lemma habits_by_id_lookup m l m' i :
  habits_by_id m l = Ok m' →
  m' !! i = match last (filter (λ h, h_id h = Some i) l) with
            | Some h => Some h
            | None => m !! i
            end.
Proof.
  revert m. induction l as [|h l IH]; intros m; simpl.
  - by intros [= ->].
  - unfold habit_getitem_id. destruct (h_id h) as [j|] eqn:Hj; simpl; [|done].
    intros Hm. rewrite (IH _ Hm), filter_cons.
    destruct (decide (h_id h = Some i)) as [Hi|Hi].
    + assert (j = i) as -> by congruence. rewrite last_cons.
      destruct (last _); [done|]. apply lookup_insert_eq.
    + destruct (last _); [done|]. apply lookup_insert_ne. congruence.
Qed.

(** Of several habits with one id the last one is kept: the dict maps an id
    to the last habit of the backup with that id, and [get_habit_name] gives
    the name of that habit, or "Unknown" when it has none. *)
Theorem get_habit_name_last load_json filepath dat self habit_id :
  HumaneData_init load_json filepath dat = Ok self →
  let found := last (filter (λ h, h_id h = Some habit_id)
                            (data_habits (data self))) in
  habits self !! habit_id = found
  ∧ get_habit_name self habit_id
    = from_option (λ h, default "Unknown" (h_name h)) "Unknown" found.
Proof.
  intros Hload found.
  destruct (loaded_inv _ _ _ _ Hload) as (_ & Hhs & _).
  assert (habits self !! habit_id = found) as Hfound.
  { rewrite (habits_by_id_lookup _ _ _ habit_id Hhs). unfold found.
    by destruct (last _). }
  split; [done|]. unfold get_habit_name. rewrite Hfound. by destruct found.
Qed.

Lemma get_habit_name_last_witness :
  let found := last (filter (λ h, h_id h = Some "habit2")
                            (data_habits (data test_humane_data))) in
  habits test_humane_data !! "habit2" = found
  ∧ get_habit_name test_humane_data "habit2"
    = from_option (λ h, default "Unknown" (h_name h)) "Unknown" found.
Proof.
  apply (get_habit_name_last no_files None (Some TEST_DATA)). reflexivity.
Defined.

Lemma unique_id_filter (l : list habit) h i :
  NoDup (h_id <$> l) → h ∈ l → h_id h = Some i →
  filter (λ h, h_id h = Some i) l = [h].
Proof.
  induction l as [|h' l IH]; intros Hnd Hin Hi; [by apply elem_of_nil in Hin|].
  rewrite fmap_cons in Hnd. apply NoDup_cons in Hnd as [Hh' Hnd].
  rewrite filter_cons. apply elem_of_cons in Hin as [<-|Hin].
  - rewrite decide_True by done. f_equal.
    destruct (filter _ l) as [|h2 ?] eqn:Hf; [done|].
    assert (h2 ∈ filter (λ h, h_id h = Some i) l)
      as [Hi2 Hin2]%list_elem_of_filter by (rewrite Hf; left).
    destruct Hh'. rewrite Hi, <-Hi2. by apply list_elem_of_fmap_2.
  - rewrite decide_False; [by apply IH|].
    intros Hi'. destruct Hh'. rewrite Hi', <-Hi. by apply list_elem_of_fmap_2.
Qed.

(** When the ids of the backup differ, every habit is found under its id,
    with its own name. *)
Theorem get_habit_name_found load_json filepath dat self h habit_id :
  HumaneData_init load_json filepath dat = Ok self →
  unique_ids self →
  h ∈ data_habits (data self) →
  h_id h = Some habit_id →
  habits self !! habit_id = Some h
  ∧ get_habit_name self habit_id = default "Unknown" (h_name h).
Proof.
  intros Hload Huniq Hin Hid.
  destruct (loaded_inv _ _ _ _ Hload) as (_ & Hhs & _).
  assert (habits self !! habit_id = Some h) as Hfound.
  { rewrite (habits_by_id_lookup _ _ _ habit_id Hhs).
    by rewrite (unique_id_filter _ h habit_id Huniq Hin Hid). }
  split; [done|]. unfold get_habit_name. by rewrite Hfound.
Qed.

Lemma get_habit_name_found_witness :
  habits test_humane_data !! "habit3"
  = Some (Habit (Some "habit3") (Some "Evening Walk") (Some "fitness") (Some 5))
  ∧ get_habit_name test_humane_data "habit3" = "Evening Walk".
Proof.
  apply (get_habit_name_found no_files None (Some TEST_DATA) test_humane_data
           (Habit (Some "habit3") (Some "Evening Walk") (Some "fitness")
                  (Some 5)) "habit3").
  - reflexivity.
  - unfold unique_ids. compute_done.
  - simpl. right. right. left.
  - reflexivity.
Defined.

(** ** Loading from a file *)

(** With a path and no data, a file that cannot be read or parsed makes
    [__init__] raise the load error, before any habit is looked at; a file
    that parses gives what its content gives as data. *)
Theorem init_from_path load_json p :
  p ≠ "" →
  HumaneData_init load_json (Some p) None
  = match load_json p with
    | Some d => HumaneData_init load_json None (Some d)
    | None => Raise (LoadError p)
    end.
Proof.
  intros Hp. unfold HumaneData_init, init_data.
  rewrite bool_decide_eq_false_2 by done. by destruct (load_json p).
Qed.

Lemma init_from_path_witness :
  HumaneData_init no_files (Some "backup.json") None
  = Raise (LoadError "backup.json").
Proof. apply (init_from_path no_files "backup.json"). discriminate. Defined.

(** * Further properties of the tables *)

Lemma stats_cats_perm self :
  (λ r : string * nat * Z, r.1.1) <$> get_category_stats self
  ≡ₚ (get_categories self).*1.
Proof. by rewrite stats_categories, (sorted_perm fst String.leb). Qed.

Lemma categories_table_row_keys self :
  row_key <$> CategoriesScreen_on_mount self
  = Some <$> ((λ r : string * nat * Z, r.1.1) <$> get_category_stats self).
Proof.
  unfold CategoriesScreen_on_mount. rewrite <-!list_fmap_compose.
  apply list_fmap_ext. by intros _ [[c n] t] _.
Qed.

(** The keys of the rows of the categories table differ from one another;
    they are the categories of the habits, "uncategorized" for a habit
    without one; there are at most as many rows as habits. *)
Theorem categories_table_keys (self : HumaneData) :
  let hs := data_habits (data self) in
  let rows := CategoriesScreen_on_mount self in
  NoDup (row_key <$> rows)
  ∧ (∀ k, k ∈ row_key <$> rows
          ↔ ∃ h, h ∈ hs ∧ k = Some (category_or_default h))
  ∧ (length rows ≤ length hs)%nat.
Proof.
  intros hs rows. unfold rows. rewrite categories_table_row_keys.
  destruct (get_categories_groups self) as (Hnd & Hel & Hcov).
  assert (∀ c, c ∈ (get_categories self).*1
               ↔ ∃ h, h ∈ hs ∧ category_or_default h = c) as Hkeys.
  { intros c. split.
    - intros [[c' l] [-> Hin]]%list_elem_of_fmap.
      destruct (Hel _ _ Hin) as [-> Hne]. simpl.
      destruct (habits_of_category c' _) as [|h ?] eqn:Hf; [done|].
      assert (h ∈ habits_of_category c' (data_habits (data self)))
        as [? ?]%list_elem_of_filter by (rewrite Hf; left).
      by exists h.
    - intros (h & Hin & <-). by apply Hcov. }
  split; [|split].
  - apply (NoDup_fmap_2 Some). by rewrite stats_cats_perm.
  - intros k. rewrite list_elem_of_fmap. setoid_rewrite stats_cats_perm.
    setoid_rewrite Hkeys. split.
    + intros (c & -> & h & ? & <-). by exists h.
    + intros (h & ? & ->). exists (category_or_default h). eauto.
  - rewrite <-(length_fmap row_key), categories_table_row_keys, length_fmap.
    rewrite stats_cats_perm.
    rewrite <-(length_fmap category_or_default hs).
    apply submseteq_length, NoDup_submseteq; [done|].
    intros c (h & Hin & <-)%Hkeys. by apply list_elem_of_fmap_2.
Qed.

Lemma habits_table_row_keys self category rows :
  HabitsScreen_on_mount self category = Ok rows →
  row_key <$> rows
  = h_id <$> sorted habit_sort_key String.leb false
               (get_habits_by_category self category).
Proof.
  intros [Hall _]%HabitsScreen_on_mount_inv. symmetry.
  induction Hall as [|h r hs rs (i & Hi & ->) _ IH]; [done|].
  rewrite !fmap_cons, IH. by rewrite Hi.
Qed.

(** When the ids of the backup differ, the keys of the rows of a habits table
    differ from one another; the table has one row for each habit that
    [get_habits_by_category] returns, keyed by the id of a habit of the
    backup. *)
Theorem habits_table_keys self category rows :
  unique_ids self →
  HabitsScreen_on_mount self category = Ok rows →
  NoDup (row_key <$> rows)
  ∧ length rows = length (get_habits_by_category self category)
  ∧ keyed_by_habits self rows.
Proof.
  intros Huniq Hrows.
  pose proof (sorted_perm habit_sort_key String.leb false
                (get_habits_by_category self category)) as Hperm.
  split; [|split].
  - rewrite (habits_table_row_keys _ _ _ Hrows), Hperm.
    apply (sublist_NoDup _ _ Huniq), fmap_sublist, sublist_filter.
  - rewrite <-(length_fmap row_key), (habits_table_row_keys _ _ _ Hrows).
    by rewrite length_fmap, Hperm.
  - intros r Hr. apply HabitsScreen_on_mount_inv in Hrows as [Hall _].
    apply list_elem_of_lookup in Hr as [n Hn].
    destruct (Forall2_lookup_r _ _ _ _ _ Hall Hn) as (h & Hh & i & Hi & ->).
    apply list_elem_of_lookup_2 in Hh. rewrite Hperm in Hh.
    apply list_elem_of_filter in Hh as [_ Hh]. by exists h, i.
Qed.

Lemma habits_table_keys_witness :
  NoDup (row_key <$> [ Row (Some "habit3") ["Evening Walk"; "5"; "0"];
                       Row (Some "habit1") ["Morning Run"; "3"; "2"] ])
  ∧ length [ Row (Some "habit3") ["Evening Walk"; "5"; "0"];
             Row (Some "habit1") ["Morning Run"; "3"; "2"] ]
    = length (get_habits_by_category test_humane_data "fitness")
  ∧ keyed_by_habits test_humane_data
      [ Row (Some "habit3") ["Evening Walk"; "5"; "0"];
        Row (Some "habit1") ["Morning Run"; "3"; "2"] ].
Proof.
  apply (habits_table_keys test_humane_data "fitness").
  - unfold unique_ids. compute_done.
  - reflexivity.
Defined.

(** The entries table has one row for each entry of the habit, and one row
    when there is none. *)
Theorem entries_table_length (self : HumaneData) (habit_id : string) :
  length (EntriesScreen_on_mount self habit_id)
  = (length (get_entries_for_habit self habit_id) `max` 1)%nat.
Proof.
  rewrite EntriesScreen_on_mount_eq. cbv zeta.
  rewrite <-(Permutation_length
               (sorted_perm entry_sort_key String.leb true
                  (get_entries_for_habit self habit_id))).
  case_decide as Hnil.
  - by rewrite Hnil.
  - rewrite length_fmap. destruct (sorted _ _ _ _); simpl; [done|lia].
Qed.

Lemma first10_length s : (String.length (first10 s) ≤ 10)%nat.
Proof.
  unfold first10. generalize 10%nat. intros n. revert s.
  induction n as [|n IH]; intros [|c s]; simpl; try lia.
  specialize (IH s). lia.
Qed.

Lemma first10_starts s : starts (first10 s) s.
Proof.
  unfold starts, first10. generalize 10%nat. intros n. revert s.
  induction n as [|n IH]; intros [|c s]; simpl; try done.
  destruct (ascii_dec c c); [apply IH|done].
Qed.

(** A row of an entry has three cells; the date cells are the first
    characters of the stored strings, ten at most. *)
Theorem entry_row_cells (e : entry) :
  ∃ date value created,
    cells (entry_row e) = [date; value; created]
    ∧ starts date (default "" (e_date e))
    ∧ starts created (default "" (e_createdAt e))
    ∧ (String.length date ≤ 10)%nat
    ∧ (String.length created ≤ 10)%nat.
Proof.
  eexists _, _, _. split; [done|].
  auto using first10_starts, first10_length.
Qed.

(** * Further properties of the screen stack *)

(** ** Every key press is one move *)

Lemma mount_inv humane_data c s :
  mount humane_data c = Ok s → cls s = c ∧ cursor_row s = 0.
Proof.
  destruct c; simpl; try by intros [= <-].
  destruct (HabitsScreen_on_mount _ _); simpl; [|done]. by intros [= <-].
Qed.

Lemma action_select_step humane_data target s below run a' :
  (cls s = CategoriesScreen ∧ target = HabitsScreen)
  ∨ (∃ c, cls s = HabitsScreen c ∧ target = EntriesScreen) →
  action_select humane_data target s (App (s :: below) run) = Ok a' →
  step humane_data (App (s :: below) run) a'.
Proof.
  intros Hcls. unfold action_select.
  case_bool_decide; [|intros [= <-]; apply step_none].
  destruct (row_at s) as [r|] eqn:Hr; [|done].
  destruct (mount _ _) as [s'|] eqn:Hs'; simpl; [|done]. intros [= <-].
  destruct Hcls as [[Hc ->]|(c & Hc & ->)].
  - by eapply step_select_category.
  - by eapply step_select_habit.
Qed.

Lemma run_action_step humane_data act a a' :
  run_action humane_data act a = Ok a' → step humane_data a a'.
Proof.
  destruct a as [[|s below] run]; [intros [= <-]; apply step_none|].
  unfold run_action. cbn [screen_stack].
  destruct (cls s) eqn:Hcls, act; cbn [bind mount with_top screen_stack running];
    intros Hres;
    first
      [ injection Hres as <-;
        first [ apply step_none
              | apply (step_quit humane_data (App (s :: below) run))
              | apply step_cursor; congruence
              | apply step_help; congruence
              | apply step_back; congruence ]
      | apply (action_select_step _ _ _ _ _ _ (or_introl (conj Hcls eq_refl))
                 Hres)
      | apply (action_select_step _ _ _ _ _ _
                 (or_intror (ex_intro _ _ (conj Hcls eq_refl))) Hres) ].
Qed.

Lemma press_step humane_data k a a' :
  press humane_data k a = Ok a' → step humane_data a a'.
Proof.
  unfold press. destruct (running a); [|intros [= <-]; apply step_none].
  destruct (screen_stack a) as [|s below]; [intros [= <-]; apply step_none|].
  destruct (binding_of _ _) as [act|]; [|intros [= <-]; apply step_none].
  apply run_action_step.
Qed.

(** ** What the moves keep *)

Lemma clamp_row_ok n r :
  Z.min 0 (Z.of_nat n - 1) ≤ clamp_row n r ≤ Z.max 0 (Z.of_nat n - 1).
Proof. unfold clamp_row, clamp. repeat case_match; lia. Qed.

Lemma row_at_elem s r : row_at s = Some r → r ∈ table s.
Proof.
  unfold row_at. case_bool_decide; [|done]. apply list_elem_of_lookup_2.
Qed.


Lemma nav_stack_top s s' l :
  cls s' = cls s → nav_stack (s :: l) → nav_stack (s' :: l).
Proof.
  intros Hcls Hnav. inversion Hnav; simplify_eq.
  - apply nav_categories. congruence.
  - eapply nav_habits; [done..|congruence].
  - eapply nav_entries; [done..|congruence].
Qed.

Lemma nav_stack_not_help s l : nav_stack (s :: l) → cls s ≠ HelpScreen.
Proof. intros Hnav. inversion Hnav; congruence. Qed.

Lemma stack_ok_nav s l :
  stack_ok (s :: l) → cls s ≠ HelpScreen → nav_stack (s :: l).
Proof. intros [?|(? & ? & ? & ? & ?)]; [done|]. by simplify_eq. Qed.

Lemma step_stack_ok humane_data a a' :
  stack_ok (screen_stack a) → step humane_data a a' →
  stack_ok (screen_stack a').
Proof.
  intros Hok Hstep. destruct Hstep as
    [a|a|s below run r Hs|s below run Hs|s below run r s' Hs Hr Hs'
    |s below run c r s' Hs Hr Hs'|s below run Hs]; cbn [screen_stack] in *;
    try done.
  - left. apply (nav_stack_top s); [done|]. by apply stack_ok_nav.
  - right. eexists _, _. split; [done|]. split; [done|].
    by apply stack_ok_nav.
  - left. apply stack_ok_nav in Hok; [|congruence].
    apply mount_inv in Hs' as [Hc _].
    apply row_at_elem in Hr.
    inversion Hok; simplify_eq; try congruence. by eapply nav_habits.
  - left. apply stack_ok_nav in Hok; [|congruence].
    apply mount_inv in Hs' as [Hc _].
    apply row_at_elem in Hr.
    inversion Hok; simplify_eq; try congruence. by eapply nav_entries.
  - left. destruct Hok as [Hnav|(? & ? & ? & ? & ?)]; [|by simplify_eq].
    inversion Hnav; simplify_eq; try congruence;
      first [by apply nav_categories|done].
Qed.

Lemma step_screens humane_data a a' :
  Forall (λ s, mounted humane_data s ∧ cursor_ok s) (screen_stack a) →
  step humane_data a a' →
  Forall (λ s, mounted humane_data s ∧ cursor_ok s) (screen_stack a').
Proof.
  intros Hall Hstep. destruct Hstep as
    [a|a|s below run r Hs|s below run Hs|s below run r s' Hs Hr Hs'
    |s below run c r s' Hs Hr Hs'|s below run Hs]; cbn [screen_stack] in *;
    try done.
  - apply Forall_cons in Hall as [[Hm _] Hall]. constructor; [|done].
    split; [done|]. apply clamp_row_ok.
  - constructor; [|done]. split; [by eexists|]. unfold cursor_ok. simpl. lia.
  - constructor; [|done]. destruct (mount_inv _ _ _ Hs') as [Hc H0].
    split; [exists s'; by rewrite Hc|]. unfold cursor_ok. rewrite H0. lia.
  - constructor; [|done]. destruct (mount_inv _ _ _ Hs') as [Hc H0].
    split; [exists s'; by rewrite Hc|]. unfold cursor_ok. rewrite H0. lia.
  - by apply Forall_cons in Hall as [_ Hall].
Qed.

Lemma reachable_well_formed humane_data a :
  reachable humane_data a → well_formed humane_data a.
Proof.
  induction 1 as [a Hmount|a k a' _ [Hok Hall] Hpress].
  - unfold HumaneCLI_on_mount in Hmount. simpl in Hmount.
    injection Hmount as <-. split.
    + left. by apply nav_categories.
    + constructor; [|done]. split; [by eexists|].
      unfold cursor_ok. simpl. lia.
  - apply press_step in Hpress. split.
    + by eapply step_stack_ok.
    + by eapply step_screens.
Qed.

Lemma reachable_presses humane_data ks a0 a :
  HumaneCLI_on_mount humane_data = Ok a0 →
  presses humane_data ks a0 = Ok a →
  reachable humane_data a.
Proof.
  intros Hmount%reachable_mount. revert a0 Hmount.
  induction ks as [|k ks IH]; intros a0 Ha0; simpl.
  - by intros [= <-].
  - destruct (press humane_data k a0) as [a1|] eqn:Hk; simpl; [|done].
    apply IH. by eapply reachable_press.
Qed.

Lemma test_app_reachable : reachable test_humane_data test_app.
Proof.
  by apply (reachable_presses test_humane_data ["enter"; "j"]
              (App [Screen CategoriesScreen
                           (CategoriesScreen_on_mount test_humane_data) 0]
                   true)).
Qed.

Lemma reachable_by_keys_reachable humane_data a :
  reachable_by_keys humane_data a → reachable humane_data a.
Proof.
  induction 1 as [a Hmount|a k a' _ IH _ Hpress].
  - by apply reachable_mount.
  - by eapply reachable_press.
Qed.

Lemma test_app_reachable_by_keys : reachable_by_keys test_humane_data test_app.
Proof.
  apply (reachable_by_keys_press test_humane_data
           (App [ Screen (HabitsScreen "fitness")
                         [ Row (Some "habit3") ["Evening Walk"; "5"; "0"];
                           Row (Some "habit1") ["Morning Run"; "3"; "2"] ] 0;
                  Screen CategoriesScreen
                         (CategoriesScreen_on_mount test_humane_data) 0 ]
                true) "j"); [|compute_done|done].
  apply (reachable_by_keys_press test_humane_data
           (App [ Screen CategoriesScreen
                         (CategoriesScreen_on_mount test_humane_data) 0 ]
                true) "enter"); [|compute_done|done].
  by apply reachable_by_keys_mount.
Qed.

Lemma nav_stack_length l : nav_stack l → (length l ≤ 3)%nat.
Proof. destruct 1; simpl; lia. Qed.

(** ** The shape of the stack *)

(** As long as only keys of the [BINDINGS] tables are pressed, the stack is
    the categories screen, or a habits screen opened from one of its rows
    over it, or an entries screen opened from a row of that habits screen
    over both; the help screen is only ever on top of such a stack.  The
    stack is at most four screens deep. *)
Theorem reachable_stack_shape humane_data a :
  reachable_by_keys humane_data a →
  stack_ok (screen_stack a) ∧ (length (screen_stack a) ≤ 4)%nat.
Proof.
  intros [Hok _]%reachable_by_keys_reachable%reachable_well_formed.
  split; [done|].
  destruct Hok as [Hnav|(s & l & -> & _ & Hnav)];
    apply nav_stack_length in Hnav; simpl; lia.
Qed.

Lemma reachable_stack_shape_witness :
  stack_ok (screen_stack test_app) ∧ (length (screen_stack test_app) ≤ 4)%nat.
Proof.
  apply (reachable_stack_shape test_humane_data).
  apply test_app_reachable_by_keys.
Defined.

(** The keys of the [BINDINGS] tables never change a table: every screen of
    the stack has the rows its [on_mount] computes from the accessor.  Its
    cursor is on one of them; on an empty table the cursor is on row 0 or on
    row -1, where [k] leaves it. *)
Theorem reachable_screens humane_data a :
  reachable_by_keys humane_data a →
  Forall (λ s, mounted humane_data s ∧ cursor_ok s) (screen_stack a).
Proof.
  by intros [_ Hall]%reachable_by_keys_reachable%reachable_well_formed.
Qed.

Lemma reachable_screens_witness :
  Forall (λ s, mounted test_humane_data s ∧ cursor_ok s)
         (screen_stack test_app).
Proof.
  apply (reachable_screens test_humane_data).
  apply test_app_reachable_by_keys.
Defined.

(** ** What a key press can raise *)





(** ** Selecting and going back *)

Lemma binding_select c k :
  c = CategoriesScreen ∨ (∃ category, c = HabitsScreen category) →
  k ∈ ["enter"; "l"] →
  binding_of k (BINDINGS c ++ HumaneCLI_BINDINGS) = Some select.
Proof.
  intros Hc Hk. repeat (apply elem_of_cons in Hk as [->|Hk]);
    [| |by apply elem_of_nil in Hk];
    by destruct Hc as [->|[? ->]].
Qed.

Lemma binding_back c k :
  (∃ category, c = HabitsScreen category) ∨ (∃ habit_id, c = EntriesScreen habit_id) →
  k ∈ ["h"; "escape"] →
  binding_of k (BINDINGS c ++ HumaneCLI_BINDINGS) = Some back.
Proof.
  intros Hc Hk. repeat (apply elem_of_cons in Hk as [->|Hk]);
    [| |by apply elem_of_nil in Hk];
    by destruct Hc as [[? ->]|[? ->]].
Qed.

(** On the categories screen or a habits screen of the running application,
    with the cursor on a row: when [enter] or [l] does not raise, it has put
    on the stack the screen named by the key of that row, freshly mounted
    with its cursor on row 0, and [h] or [escape] then gives back the state
    before: the same screens, rows and cursor rows. *)
Theorem select_back_round_trip humane_data a s below r k_select k_back a' :
  running a = true →
  screen_stack a = s :: below →
  cls s = CategoriesScreen ∨ (∃ category, cls s = HabitsScreen category) →
  row_at s = Some r →
  k_select ∈ ["enter"; "l"] →
  k_back ∈ ["h"; "escape"] →
  press humane_data k_select a = Ok a' →
  ∃ s',
    a' = App (s' :: s :: below) true
    ∧ mount humane_data
        (match cls s with
         | CategoriesScreen => HabitsScreen (str_key (row_key r))
         | _ => EntriesScreen (str_key (row_key r))
         end) = Ok s'
    ∧ cursor_row s' = 0
    ∧ press humane_data k_back a' = Ok a.
Proof.
  intros Hrun Hst Hcls Hr Hsel Hback.
  destruct a as [st run]. simpl in *. subst.
  assert (0 < length (table s))%nat as Hlen.
  { apply row_at_elem in Hr. destruct (table s); simpl; [|lia].
    by apply elem_of_nil in Hr. }
  unfold press. cbn [running screen_stack].
  rewrite (binding_select _ _ Hcls Hsel). unfold run_action.
  cbn [screen_stack].
  assert (action_select humane_data
            (match cls s with
             | CategoriesScreen => HabitsScreen
             | _ => EntriesScreen
             end) s (App (s :: below) true) = Ok a' →
          ∃ s', a' = App (s' :: s :: below) true
                ∧ mount humane_data
                    (match cls s with
                     | CategoriesScreen => HabitsScreen (str_key (row_key r))
                     | _ => EntriesScreen (str_key (row_key r))
                     end) = Ok s') as Hselect.
  { unfold action_select. rewrite bool_decide_eq_true_2 by done. rewrite Hr.
    destruct Hcls as [Hcat|[category Hhab]].
    - rewrite Hcat. destruct (mount _ _) as [s'|]; simpl; [|done].
      intros [= <-]. by exists s'.
    - rewrite Hhab. destruct (mount _ _) as [s'|]; simpl; [|done].
      intros [= <-]. by exists s'. }
  intros Hpress.
  assert (∃ s', a' = App (s' :: s :: below) true
                ∧ mount humane_data
                    (match cls s with
                     | CategoriesScreen => HabitsScreen (str_key (row_key r))
                     | _ => EntriesScreen (str_key (row_key r))
                     end) = Ok s') as (s' & -> & Hs').
  { apply Hselect. by destruct Hcls as [Hcat|[category Hhab]];
      [rewrite Hcat in *|rewrite Hhab in *]. }
  exists s'. destruct (mount_inv _ _ _ Hs') as [Hc H0].
  split; [done|]. split; [done|]. split; [done|].
  cbn [running screen_stack]. rewrite binding_back; [|..|done].
  - unfold run_action. cbn [screen_stack]. rewrite Hc. by destruct (cls s).
  - rewrite Hc. destruct (cls s); eauto.
Qed.

Lemma select_back_round_trip_witness :
  ∃ s',
    App [ Screen (EntriesScreen "habit1")
                 (EntriesScreen_on_mount test_humane_data "habit1") 0;
          Screen (HabitsScreen "fitness")
                 [ Row (Some "habit3") ["Evening Walk"; "5"; "0"];
                   Row (Some "habit1") ["Morning Run"; "3"; "2"] ] 1;
          Screen CategoriesScreen
                 (CategoriesScreen_on_mount test_humane_data) 0 ] true
    = App (s' :: Screen (HabitsScreen "fitness")
                   [ Row (Some "habit3") ["Evening Walk"; "5"; "0"];
                     Row (Some "habit1") ["Morning Run"; "3"; "2"] ] 1
              :: [Screen CategoriesScreen
                         (CategoriesScreen_on_mount test_humane_data) 0]) true
    ∧ mount test_humane_data (EntriesScreen "habit1") = Ok s'
    ∧ cursor_row s' = 0
    ∧ press test_humane_data "escape"
        (App [ Screen (EntriesScreen "habit1")
                      (EntriesScreen_on_mount test_humane_data "habit1") 0;
               Screen (HabitsScreen "fitness")
                      [ Row (Some "habit3") ["Evening Walk"; "5"; "0"];
                        Row (Some "habit1") ["Morning Run"; "3"; "2"] ] 1;
               Screen CategoriesScreen
                      (CategoriesScreen_on_mount test_humane_data) 0 ] true)
      = Ok test_app.
Proof.
  apply (select_back_round_trip test_humane_data test_app
           (Screen (HabitsScreen "fitness")
                   [ Row (Some "habit3") ["Evening Walk"; "5"; "0"];
                     Row (Some "habit1") ["Morning Run"; "3"; "2"] ] 1)
           [Screen CategoriesScreen
                   (CategoriesScreen_on_mount test_humane_data) 0]
           (Row (Some "habit1") ["Morning Run"; "3"; "2"]) "l" "escape").
  - reflexivity.
  - reflexivity.
  - right. by eexists.
  - reflexivity.
  - right. left.
  - right. left.
  - reflexivity.
Defined.

(** [enter] and [l] change nothing on a screen whose table is empty, and
    nothing on an entries screen. *)
Theorem select_without_target humane_data a s below k :
  screen_stack a = s :: below →
  table s = [] ∨ (∃ habit_id, cls s = EntriesScreen habit_id) →
  k ∈ ["enter"; "l"] →
  press humane_data k a = Ok a.
Proof.
  intros Hst Hs Hk. unfold press. destruct (running a); [|done].
  rewrite Hst.
  assert (k = "enter" ∨ k = "l") as Hk'.
  { repeat (apply elem_of_cons in Hk as [->|Hk]); eauto.
    by apply elem_of_nil in Hk. }
  destruct (cls s) eqn:Hcls.
  - destruct Hs as [Hnil|[? ?]]; [|done].
    rewrite (binding_select CategoriesScreen k) by eauto.
    unfold run_action. rewrite Hst, Hcls. unfold action_select.
    by rewrite Hnil.
  - destruct Hs as [Hnil|[? ?]]; [|done].
    rewrite (binding_select (HabitsScreen category) k) by eauto.
    unfold run_action. rewrite Hst, Hcls. unfold action_select.
    by rewrite Hnil.
  - by destruct Hk' as [-> | ->].
  - by destruct Hk' as [-> | ->].
Qed.

Lemma select_without_target_witness :
  press test_humane_data "enter"
    (App [ Screen (EntriesScreen "habit3")
                  (EntriesScreen_on_mount test_humane_data "habit3") 0;
           Screen (HabitsScreen "fitness")
                  [ Row (Some "habit3") ["Evening Walk"; "5"; "0"];
                    Row (Some "habit1") ["Morning Run"; "3"; "2"] ] 0;
           Screen CategoriesScreen
                  (CategoriesScreen_on_mount test_humane_data) 0 ] true)
  = Ok (App [ Screen (EntriesScreen "habit3")
                  (EntriesScreen_on_mount test_humane_data "habit3") 0;
           Screen (HabitsScreen "fitness")
                  [ Row (Some "habit3") ["Evening Walk"; "5"; "0"];
                    Row (Some "habit1") ["Morning Run"; "3"; "2"] ] 0;
           Screen CategoriesScreen
                  (CategoriesScreen_on_mount test_humane_data) 0 ] true).
Proof.
  eapply (select_without_target test_humane_data).
  - reflexivity.
  - right. by eexists.
  - left.
Defined.

(** ** Quitting *)

Lemma presses_stopped humane_data ks a :
  running a = false → presses humane_data ks a = Ok a.
Proof.
  intros Hrun. induction ks as [|k ks IH]; simpl; [done|].
  unfold press. by rewrite Hrun.
Qed.

(** On every screen but the help screen [q] stops the application and leaves
    the stack as it is; no key does anything afterwards. *)
Theorem quit_is_final humane_data a s below ks :
  running a = true →
  screen_stack a = s :: below →
  cls s ≠ HelpScreen →
  press humane_data "q" a = Ok (App (screen_stack a) false)
  ∧ presses humane_data ("q" :: ks) a = Ok (App (screen_stack a) false).
Proof.
  intros Hrun Hst Hcls.
  assert (press humane_data "q" a = Ok (App (screen_stack a) false)) as Hq.
  { unfold press. rewrite Hrun, Hst.
    assert (binding_of "q" (BINDINGS (cls s) ++ HumaneCLI_BINDINGS) = Some quit)
      as -> by by destruct (cls s).
    unfold run_action. rewrite Hst. by destruct (cls s). }
  split; [done|]. cbn [presses]. rewrite Hq. simpl.
  by apply presses_stopped.
Qed.

Lemma quit_is_final_witness :
  press test_humane_data "q" test_app = Ok (App (screen_stack test_app) false)
  ∧ presses test_humane_data ["q"; "j"; "enter"; "?"] test_app
    = Ok (App (screen_stack test_app) false).
Proof.
  eapply (quit_is_final test_humane_data test_app); [reflexivity..|discriminate].
Defined.

(** ** The cursor keys *)

(** [j] moves the cursor one row down and [k] one row up, and neither moves
    it past the last or the first row; on an empty table [j] puts it on row
    0 and [k] on row -1.  The screens, their rows and the other cursors stay
    as they are. *)
Theorem cursor_keys humane_data a s below :
  running a = true →
  screen_stack a = s :: below →
  cls s ≠ HelpScreen →
  cursor_ok s →
  let last := Z.of_nat (length (table s)) - 1 in
  press humane_data "j" a
  = Ok (App (Screen (cls s) (table s)
                    (Z.min (cursor_row s + 1) (Z.max 0 last)) :: below)
            true)
  ∧ press humane_data "k" a
    = Ok (App (Screen (cls s) (table s)
                      (Z.max (cursor_row s - 1) (Z.min 0 last)) :: below)
              true).
Proof.
  intros Hrun Hst Hcls Hcur last. destruct a as [st run]. simpl in *. subst.
  unfold cursor_ok in Hcur. cbv zeta in Hcur. fold last in Hcur.
  unfold press. cbn [running screen_stack].
  assert (binding_of "j" (BINDINGS (cls s) ++ HumaneCLI_BINDINGS)
          = Some cursor_down) as -> by by destruct (cls s).
  assert (binding_of "k" (BINDINGS (cls s) ++ HumaneCLI_BINDINGS)
          = Some cursor_up) as -> by by destruct (cls s).
  unfold run_action. cbn [screen_stack].
  assert (clamp_row (length (table s)) (cursor_row s + 1)
          = Z.min (cursor_row s + 1) (Z.max 0 last)) as Hdown
    by (unfold clamp_row, clamp; fold last; repeat case_match; lia).
  assert (clamp_row (length (table s)) (cursor_row s - 1)
          = Z.max (cursor_row s - 1) (Z.min 0 last)) as Hup
    by (unfold clamp_row, clamp; fold last; repeat case_match; lia).
  destruct (cls s) eqn:Hs; try done;
    unfold with_top, move_cursor; cbn [screen_stack running cls table];
    by rewrite Hdown, Hup, Hs.
Qed.

Lemma cursor_keys_witness :
  let last := Z.of_nat (length (table (Screen CategoriesScreen [] 0))) - 1 in
  press test_humane_data "j" (App [Screen CategoriesScreen [] 0] true)
  = Ok (App [Screen CategoriesScreen [] (Z.min (0 + 1) (Z.max 0 last))] true)
  ∧ press test_humane_data "k" (App [Screen CategoriesScreen [] 0] true)
    = Ok (App [Screen CategoriesScreen [] (Z.max (0 - 1) (Z.min 0 last))]
              true).
Proof.
  apply (cursor_keys test_humane_data
           (App [Screen CategoriesScreen [] 0] true)
           (Screen CategoriesScreen [] 0) []).
  - reflexivity.
  - reflexivity.
  - discriminate.
  - unfold cursor_ok. simpl. lia.
Defined.

(** On an empty table [k] leaves the cursor on row -1, and [j] brings it back
    to row 0; on the last of two rows [j] changes nothing. *)
Example cursor_keys_at_the_bounds :
  press test_humane_data "k" (App [Screen CategoriesScreen [] 0] true)
  = Ok (App [Screen CategoriesScreen [] (-1)] true)
  ∧ press test_humane_data "j" (App [Screen CategoriesScreen [] (-1)] true)
    = Ok (App [Screen CategoriesScreen [] 0] true)
  ∧ press test_humane_data "j" test_app = Ok test_app.
Proof. done. Qed.

(** On an entries screen [g] puts the cursor on the first row and [G] on the
    last one, wherever it was. *)
Theorem top_bottom_keys humane_data a s below habit_id :
  running a = true →
  screen_stack a = s :: below →
  cls s = EntriesScreen habit_id →
  press humane_data "g" a
  = Ok (App (Screen (cls s) (table s) 0 :: below) true)
  ∧ press humane_data "G" a
    = Ok (App (Screen (cls s) (table s) (Z.of_nat (length (table s)) - 1)
                 :: below)
              true).
Proof.
  intros Hrun Hst Hcls. destruct a as [st run]. simpl in *. subst.
  unfold press. cbn [running screen_stack]. rewrite Hcls.
  change (binding_of "g" _) with (Some go_top).
  change (binding_of "G" _) with (Some go_bottom).
  unfold run_action. cbn [screen_stack]. rewrite Hcls.
  unfold with_top, move_cursor. cbn [screen_stack running cls table].
  rewrite Hcls.
  assert (clamp_row (length (table s)) 0 = 0) as ->
    by (unfold clamp_row, clamp; repeat case_match; lia).
  assert (clamp_row (length (table s)) (Z.of_nat (length (table s)) - 1)
          = Z.of_nat (length (table s)) - 1) as ->
    by (unfold clamp_row, clamp; repeat case_match; lia).
  done.
Qed.

Lemma top_bottom_keys_witness :
  press test_humane_data "g"
    (App [Screen (EntriesScreen "habit1")
                 (EntriesScreen_on_mount test_humane_data "habit1") 1] true)
  = Ok (App [Screen (EntriesScreen "habit1")
                    (EntriesScreen_on_mount test_humane_data "habit1") 0] true)
  ∧ press test_humane_data "G"
      (App [Screen (EntriesScreen "habit1")
                   (EntriesScreen_on_mount test_humane_data "habit1") 1] true)
    = Ok (App [Screen (EntriesScreen "habit1")
                      (EntriesScreen_on_mount test_humane_data "habit1") 1]
              true).
Proof.
  apply (top_bottom_keys test_humane_data
           (App [Screen (EntriesScreen "habit1")
                        (EntriesScreen_on_mount test_humane_data "habit1") 1]
                true)
           (Screen (EntriesScreen "habit1")
                   (EntriesScreen_on_mount test_humane_data "habit1") 1)
           [] "habit1"); reflexivity.
Defined.

(** ** The screens that can be reached *)

Lemma categories_rows_keyed self r :
  r ∈ CategoriesScreen_on_mount self →
  ∃ h, h ∈ data_habits (data self)
       ∧ row_key r = Some (category_or_default h).
Proof.
  intros Hr. apply (list_elem_of_fmap_2 row_key) in Hr.
  rewrite categories_table_row_keys in Hr.
  apply list_elem_of_fmap in Hr as (c & -> & Hc).
  rewrite stats_cats_perm in Hc.
  apply list_elem_of_fmap in Hc as [[c' l] [-> Hin]].
  destruct (get_categories_groups self) as (_ & Hel & _).
  destruct (Hel _ _ Hin) as [-> Hne]. simpl.
  destruct (habits_of_category c' _) as [|h ?] eqn:Hf; [done|].
  assert (h ∈ habits_of_category c' (data_habits (data self)))
    as [Hc ?]%list_elem_of_filter by (rewrite Hf; left).
  exists h. by rewrite Hc.
Qed.

Lemma habits_rows_keyed self category rows :
  HabitsScreen_on_mount self category = Ok rows → keyed_by_habits self rows.
Proof.
  intros Hrows r Hr. apply HabitsScreen_on_mount_inv in Hrows as [Hall _].
  apply list_elem_of_lookup in Hr as [n Hn].
  destruct (Forall2_lookup_r _ _ _ _ _ Hall Hn) as (h & Hh & i & Hi & ->).
  apply list_elem_of_lookup_2 in Hh.
  rewrite (sorted_perm habit_sort_key String.leb) in Hh.
  apply list_elem_of_filter in Hh as [_ Hh]. by exists h, i.
Qed.

Lemma mounted_categories humane_data s :
  mounted humane_data s → cls s = CategoriesScreen →
  table s = CategoriesScreen_on_mount humane_data.
Proof. intros (s0 & Hs0 & ->) Hcls. rewrite Hcls in Hs0. by simplify_eq/=. Qed.

Lemma mounted_habits humane_data s category :
  mounted humane_data s → cls s = HabitsScreen category →
  HabitsScreen_on_mount humane_data category = Ok (table s).
Proof.
  intros (s0 & Hs0 & ->) Hcls. rewrite Hcls in Hs0. simpl in Hs0.
  destruct (HabitsScreen_on_mount _ _); by simplify_eq/=.
Qed.

(** Whatever keys were pressed, a habits screen on the stack is the screen of
    the category of some habit of the backup ("uncategorized" for a habit
    without one), and an entries screen is the screen of the id of some
    habit of the backup. *)
Theorem reachable_screens_name_habits humane_data a s :
  reachable humane_data a →
  s ∈ screen_stack a →
  match cls s with
  | HabitsScreen category =>
      ∃ h, h ∈ data_habits (data humane_data)
           ∧ category_or_default h = category
  | EntriesScreen habit_id =>
      ∃ h, h ∈ data_habits (data humane_data) ∧ h_id h = Some habit_id
  | _ => True
  end.
Proof.
  intros [Hok Hall]%reachable_well_formed Hs.
  rewrite Forall_forall in Hall.
  assert (∃ nav, nav_stack nav ∧ nav ⊆ screen_stack a
                 ∧ (s ∈ nav ∨ cls s = HelpScreen)) as (nav & Hnav & Hsub & Hin).
  { destruct Hok as [Hnav|(sh & l & Hst & Hh & Hnav)].
    - exists (screen_stack a). eauto.
    - exists l. split; [done|]. rewrite Hst in *.
      split; [by intros ? ?; right|].
      apply elem_of_cons in Hs as [->|Hs]; eauto. }
  destruct Hin as [Hin|Hhelp]; [|by rewrite Hhelp].
  assert (∀ sc sh r,
    sc ∈ nav → cls sc = CategoriesScreen → r ∈ table sc →
    cls sh = HabitsScreen (str_key (row_key r)) →
    ∃ h, h ∈ data_habits (data humane_data)
         ∧ category_or_default h = str_key (row_key r)) as Hhabits.
  { intros sc sh r Hsc Hc Hr _. destruct (Hall sc (Hsub _ Hsc)) as [Hm _].
    rewrite (mounted_categories _ _ Hm Hc) in Hr.
    destruct (categories_rows_keyed _ _ Hr) as (h & Hh & ->). by exists h. }
  assert (∀ sh category r,
    sh ∈ nav → cls sh = HabitsScreen category → r ∈ table sh →
    ∃ h, h ∈ data_habits (data humane_data)
         ∧ h_id h = Some (str_key (row_key r))) as Hentries.
  { intros sh category r Hsh Hc Hr. destruct (Hall sh (Hsub _ Hsh)) as [Hm _].
    destruct (habits_rows_keyed _ _ _ (mounted_habits _ _ _ Hm Hc) r Hr)
      as (h & i & Hh & Hi & ->). by exists h. }
  inversion Hnav as [sc Hc|sh sc r Hc Hr Hh|se sh sc r category Hnav' Hh Hr He];
    subst nav.
  - apply list_elem_of_singleton in Hin as ->. by rewrite Hc.
  - repeat (apply elem_of_cons in Hin as [->|Hin]);
      [| |by apply elem_of_nil in Hin].
    + rewrite Hh. apply (Hhabits sc sh r); [by right; left|done..].
    + by rewrite Hc.
  - inversion Hnav' as [|sh' sc' r' Hc Hr' Hh'|]; subst.
    repeat (apply elem_of_cons in Hin as [->|Hin]);
      [| | |by apply elem_of_nil in Hin].
    + rewrite He. apply (Hentries sh category r); [by right; left|done..].
    + rewrite Hh'. apply (Hhabits sc sh r'); [by right; right; left|done..].
    + by rewrite Hc.
Qed.

Lemma reachable_screens_name_habits_witness :
  ∃ h, h ∈ data_habits (data test_humane_data)
       ∧ category_or_default h = "fitness".
Proof.
  apply (reachable_screens_name_habits test_humane_data test_app
           (Screen (HabitsScreen "fitness")
                   [ Row (Some "habit3") ["Evening Walk"; "5"; "0"];
                     Row (Some "habit1") ["Morning Run"; "3"; "2"] ] 1)).
  - apply test_app_reachable.
  - left.
Defined.

(** * Properties of [main] *)

Section MainFacts.
Variable load_json : string → option snapshot.
Variable path_exists : string → bool.
Variable default_path : string.

Lemma main_filepath_lookup argv :
  main_filepath path_exists default_path argv
  = match argv !! 1%nat with
    | Some arg => inr arg
    | None => if path_exists default_path then inr default_path
              else inl (SystemExit 1 usage)
    end.
Proof. by destruct argv as [|? [|? ?]]. Qed.

Lemma HumaneCLI_on_mount_Ok humane_data :
  HumaneCLI_on_mount humane_data
  = Ok (App [Screen CategoriesScreen (CategoriesScreen_on_mount humane_data) 0]
            true).
Proof. done. Qed.

(** When [main] starts the application, the path it settled on (the first
    argument, or the default path when there is none) exists and is not
    empty, the accessor is the one [HumaneData] builds from that file, and
    the application shows the categories screen with the cursor on row 0. *)
Theorem main_started argv humane_data a :
  main load_json path_exists default_path argv = Started humane_data a →
  let p := default default_path (argv !! 1%nat) in
  path_exists p = true
  ∧ p ≠ ""
  ∧ load_json p = Some (data humane_data)
  ∧ HumaneData_init load_json (Some p) None = Ok humane_data
  ∧ a = App [Screen CategoriesScreen
                    (CategoriesScreen_on_mount humane_data) 0] true.
Proof.
  intros Hmain p. unfold main in Hmain.
  rewrite main_filepath_lookup in Hmain.
  assert (path_exists p = true
          ∧ match HumaneCLI_init load_json (Some p) None with
            | Raise e => Uncaught e
            | Ok d => match HumaneCLI_on_mount d with
                      | Raise e => Uncaught e
                      | Ok a => Started d a
                      end
            end = Started humane_data a) as [Hex Hinit].
  { unfold p. destruct (argv !! 1%nat) as [arg|]; simpl.
    - by destruct (path_exists arg).
    - destruct (path_exists default_path) eqn:Hd; [|done].
      simpl in Hmain. by rewrite Hd in Hmain. }
  split; [done|]. unfold HumaneCLI_init in Hinit.
  case_bool_decide as Hp; [done|].
  destruct (HumaneData_init _ _ _) as [d|] eqn:Hd; [|done].
  rewrite HumaneCLI_on_mount_Ok in Hinit. injection Hinit as -> <-.
  split; [done|]. split; [|done].
  destruct (loaded_inv _ _ _ _ Hd) as (Hdata & _ & _).
  unfold init_data in Hdata. rewrite bool_decide_eq_false_2 in Hdata by done.
  destruct (load_json p); by simplify_eq.
Qed.


End MainFacts.

Lemma main_started_witness :
  let p := default "../humane-tracker-backup-2025-11-29.json"
                   (["humane_cli.py"; "backup.json"] !! 1%nat) in
  test_exists p = true
  ∧ p ≠ ""
  ∧ test_files p = Some (data test_humane_data)
  ∧ HumaneData_init test_files (Some p) None = Ok test_humane_data
  ∧ App [Screen CategoriesScreen
                (CategoriesScreen_on_mount test_humane_data) 0] true
    = App [Screen CategoriesScreen
                  (CategoriesScreen_on_mount test_humane_data) 0] true.
Proof.
  apply (main_started test_files test_exists
           "../humane-tracker-backup-2025-11-29.json"
           ["humane_cli.py"; "backup.json"]).
  reflexivity.
Defined.
